(** * pa3.c: page allocation, copy-on-write faults and process switching

    A shallow embedding of [src/pa3.c] (the four entry points [alloc_page],
    [free_page], [handle_page_fault] and [switch_process]) together with the
    properties its specification states about them.

    Conventions of the embedding.
    - C arrays are lists holding all their entries, read with [!!] and
      written with [<[ _ := _ ]>]; an access outside the array, and a
      dereference of a NULL directory pointer, make the operation return
      [None] (the C program has no defined behaviour there).
    - [unsigned int] counters are [Z] with the wrap-around modulo [2^32]
      written out ([u32]); page numbers, frame numbers and process ids are
      unsigned quantities on which the source does no arithmetic that could
      wrap, and are [nat].
    - [struct process] objects live in a heap (a list, the handle being the
      index); [current], [ptbr] and the nodes of the [processes] list are
      handles, so that [ptbr = &current->pagetable] is an equation between
      handles and can fail to hold.
    - The source never initialises the blocks it gets from [malloc], and
      reads fields of them it has not written. What a fresh block holds is
      therefore an input of the operations that allocate
      ([fresh_memory]): nothing is assumed of it unless a statement says so.
    - The constants of [vm.h] are parameters ([vm_config]). *)

From Stdlib Require Import ZArith Lia.
From stdpp Require Import prelude.

Local Open Scope nat_scope.

(** ** Configuration constants (declared in [vm.h], which is not part of
    the sources at hand) *)

Class vm_config := {
  NR_PTES_PER_PAGE : nat;
  NR_PAGEFRAMES : nat;
  RW_READ : Z
}.

(** ** Data model *)

(** [struct pte]. *)
Record pte := mk_pte {
  valid : bool;
  writable : bool;
  pfn : nat;
  private : bool
}.

(** [struct pte_directory]: the array [ptes]. *)
Abbreviation pte_directory := (list pte).

(** [struct pagetable]: the array [outer_ptes]; [None] is the NULL pointer. *)
Abbreviation pagetable := (list (option (list pte))).

(** [struct process]; the [list] node is represented by the handle's
    position in [processes]. *)
Record process := mk_process {
  pid : nat;
  p_pagetable : pagetable
}.

(** The globals of the program. *)
Record machine := mk_machine {
  heap : list process;
  processes : list nat;
  current : nat;
  ptbr : nat;
  mapcounts : list Z
}.

(** Arithmetic of [unsigned int]. *)
Definition u32 (z : Z) : Z := (z mod 2 ^ 32)%Z.

(** The value of [return -1] in a function returning [unsigned int]. *)
Definition NO_FRAME : Z := u32 (-1).

(** The entry with all four fields at zero. *)
Definition zero_pte : pte := mk_pte false false 0 false.

(** What the blocks that [malloc] hands out during one call hold before the
    program writes to them: [fresh_slot i] is [outer_ptes[i]] of a new
    [struct process] (an indeterminate pointer: NULL, or a pointer to
    whatever lies there), [fresh_pte i j] is [ptes[j]] of the directory
    allocated for slot [i]. *)
Record fresh_memory := mk_fresh {
  fresh_slot : nat → option (list pte);
  fresh_pte : nat → nat → pte
}.

(** Memory that happens to be all zeros, and memory that is not. *)
Definition zero_memory : fresh_memory :=
  mk_fresh (λ _, None) (λ _ _, zero_pte).

Definition dirty_memory : fresh_memory :=
  mk_fresh (λ _, None) (λ _ _, mk_pte true false 7 false).

Section Operations.
Context `{cfg : vm_config}.

(** The block [malloc(sizeof(struct pte_directory))] returns for slot [i]:
    [NR_PTES_PER_PAGE] entries, holding what the memory held. *)
Definition malloc_pte_directory (m : fresh_memory) (i : nat) : pte_directory :=
  fresh_pte m i <$> seq 0 NR_PTES_PER_PAGE.

(** *** Access to one entry of a page table *)

Definition pd_index_of (vpn : nat) : nat := vpn / NR_PTES_PER_PAGE.
Definition pte_index_of (vpn : nat) : nat := vpn mod NR_PTES_PER_PAGE.

(** [&pt->outer_ptes[pd_index]->ptes[pte_index]], read. *)
Definition lookup_pte (pt : pagetable) (vpn : nat) : option pte :=
  slot ← pt !! pd_index_of vpn;
  pd ← slot;
  pd !! pte_index_of vpn.

(** Assignment through that pointer. *)
Definition store_pte (pt : pagetable) (vpn : nat) (e : pte) : pagetable :=
  match pt !! pd_index_of vpn with
  | Some (Some pd) =>
      <[pd_index_of vpn := Some (<[pte_index_of vpn := e]> pd)]> pt
  | _ => pt
  end.

(** [if (!pt->outer_ptes[pd_index]) pt->outer_ptes[pd_index] = malloc(..)]. *)
Definition ensure_directory (m : fresh_memory) (pt : pagetable) (vpn : nat)
  : option pagetable :=
  slot ← pt !! pd_index_of vpn;
  match slot with
  | Some _ => Some pt
  | None =>
      Some (<[pd_index_of vpn :=
                Some (malloc_pte_directory m (pd_index_of vpn))]> pt)
  end.

(** The page table [ptbr] points to, and its replacement. *)
Definition read_ptbr (st : machine) : option pagetable :=
  p ← heap st !! ptbr st; Some (p_pagetable p).

Definition set_pagetable (h : nat) (pt : pagetable) (hp : list process)
  : list process :=
  match hp !! h with
  | Some p => <[h := mk_process (pid p) pt]> hp
  | None => hp
  end.

Definition write_ptbr (st : machine) (pt : pagetable) (mc : list Z) : machine :=
  mk_machine (set_pagetable (ptbr st) pt (heap st)) (processes st)
             (current st) (ptbr st) mc.

(** *** mapcounts *)

(** [mapcounts[f]++] and [mapcounts[f]--]. *)
Definition mc_inc (mc : list Z) (f : nat) : option (list Z) :=
  c ← mc !! f; Some (<[f := u32 (c + 1)]> mc).

Definition mc_dec (mc : list Z) (f : nat) : option (list Z) :=
  c ← mc !! f; Some (<[f := u32 (c - 1)]> mc).

(** [while (num < NR_PAGEFRAMES && mapcounts[num]) num++;] The loop body
    runs at most [NR_PAGEFRAMES] times, which is the fuel. *)
Fixpoint scan_frames (fuel : nat) (mc : list Z) (num : nat) : nat :=
  match fuel with
  | O => num
  | S fuel' =>
      if num <? NR_PAGEFRAMES then
        match mc !! num with
        | Some c => if (c =? 0)%Z then num else scan_frames fuel' mc (S num)
        | None => num
        end
      else num
  end.

Definition first_free (mc : list Z) : nat := scan_frames NR_PAGEFRAMES mc 0.

(** *** alloc_page *)

Definition alloc_page (m : fresh_memory) (vpn : nat) (rw : Z) (st : machine)
  : option (Z * machine) :=
  pt ← read_ptbr st;
  pt1 ← ensure_directory m pt vpn;
  _ ← lookup_pte pt1 vpn;
  let num := first_free (mapcounts st) in
  if num =? NR_PAGEFRAMES then
    Some (NO_FRAME, write_ptbr st pt1 (mapcounts st))
  else
    mc ← mc_inc (mapcounts st) num;
    Some (Z.of_nat num,
          write_ptbr st
            (store_pte pt1 vpn (mk_pte true (rw =? 3)%Z num false)) mc).

(** *** free_page *)

Definition free_page (vpn : nat) (st : machine) : option machine :=
  pt ← read_ptbr st;
  e ← lookup_pte pt vpn;
  mc ← mc_dec (mapcounts st) (pfn e);
  Some (write_ptbr st (store_pte pt vpn (mk_pte false false 0 (private e))) mc).

(** *** handle_page_fault *)

Definition handle_page_fault (vpn : nat) (rw : Z) (st : machine)
  : option (bool * machine) :=
  if (rw =? RW_READ)%Z then Some (false, st)
  else
    pt ← read_ptbr st;
    e ← lookup_pte pt vpn;
    if negb (writable e) && private e then
      c ← mapcounts st !! pfn e;
      if (c =? 1)%Z then
        Some (true,
              write_ptbr st
                (store_pte pt vpn (mk_pte (valid e) true (pfn e) false))
                (mapcounts st))
      else
        let num := first_free (mapcounts st) in
        if num =? NR_PAGEFRAMES then Some (false, st)
        else
          mc1 ← mc_dec (mapcounts st) (pfn e);
          mc2 ← mc_inc mc1 num;
          Some (true,
                write_ptbr st
                  (store_pte pt vpn (mk_pte (valid e) true num false)) mc2)
    else Some (false, st).

(** *** switch_process *)

(** [list_add(new, head)] and [list_del(entry)] of [list_head.h], on the
    sequence of nodes that follow the head. *)
Definition list_add (new : nat) (l : list nat) : list nat := new :: l.
Definition list_del (entry : nat) (l : list nat) : list nat :=
  filter (λ x, x ≠ entry) l.

(** The [list_for_each_entry_safe] loop: the first node whose process has
    the requested pid. *)
Fixpoint find_process (hp : list process) (p : nat) (l : list nat)
  : option (option nat) :=
  match l with
  | [] => Some None
  | temp :: next =>
      q ← hp !! temp;
      if pid q =? p then Some (Some temp) else find_process hp p next
  end.

(** The body of the inner [for] loop, for one entry of the parent: the
    parent's entry after the iteration, the child's entry and the counters.
    [unwritten] is what the child's entry holds in the fresh directory; an
    iteration that takes [continue] leaves it there. *)
Definition fork_pte (unwritten : pte) (e : pte) (mc : list Z)
  : option (pte * pte * list Z) :=
  if valid e then
    mc' ← mc_inc mc (pfn e);
    let e' := if writable e then mk_pte (valid e) false (pfn e) true else e in
    Some (e', mk_pte true (writable e') (pfn e') (private e'), mc')
  else Some (e, unwritten, mc).

(** The inner [for] loop, from index [j] on, over the entries of one
    directory of the parent; [fresh j] is [ptes[j]] of the child's fresh
    directory. *)
Fixpoint fork_directory (fresh : nat → pte) (j : nat) (pd : pte_directory)
    (mc : list Z) : option (pte_directory * pte_directory * list Z) :=
  match pd with
  | [] => Some ([], [], mc)
  | e :: rest =>
      '(e', c, mc1) ← fork_pte (fresh j) e mc;
      '(pd', temp_pd, mc2) ← fork_directory fresh (S j) rest mc1;
      Some (e' :: pd', c :: temp_pd, mc2)
  end.

(** The outer [for] loop, from index [i] on, over the slots of the parent's
    page table. Where the parent's slot is NULL the iteration takes
    [continue] and the child's slot keeps what the fresh [struct process]
    held. *)
Fixpoint fork_pagetable (m : fresh_memory) (i : nat) (pt : pagetable)
    (mc : list Z) : option (pagetable * pagetable * list Z) :=
  match pt with
  | [] => Some ([], [], mc)
  | None :: rest =>
      '(pt', temp_pt, mc1) ← fork_pagetable m (S i) rest mc;
      Some (None :: pt', fresh_slot m i :: temp_pt, mc1)
  | Some pd :: rest =>
      '(pd', temp_pd, mc1) ← fork_directory (fresh_pte m i) 0 pd mc;
      '(pt', temp_pt, mc2) ← fork_pagetable m (S i) rest mc1;
      Some (Some pd' :: pt', Some temp_pd :: temp_pt, mc2)
  end.

Definition switch_process (m : fresh_memory) (p : nat) (st : machine)
  : option machine :=
  found ← find_process (heap st) p (processes st);
  match found with
  | Some temp =>
      Some (mk_machine (heap st)
              (list_del temp (list_add (current st) (processes st)))
              temp temp (mapcounts st))
  | None =>
      pt ← read_ptbr st;
      '(pt', temp_pt, mc) ← fork_pagetable m 0 pt (mapcounts st);
      let temp := length (heap st) in
      Some (mk_machine
              (set_pagetable (ptbr st) pt' (heap st) ++ [mk_process p temp_pt])
              (list_add (current st) (processes st))
              temp temp mc)
  end.

End Operations.

(** ** Reference counts and consistency of a machine state *)

Section Invariants.
Context `{cfg : vm_config}.

(** One entry's contribution to the number of mappings of frame [F]. *)
Definition maps_frame (F : nat) (e : pte) : nat :=
  if valid e && (pfn e =? F) then 1 else 0.

Definition count_directory (F : nat) (pd : pte_directory) : nat :=
  sum_list_with (maps_frame F) pd.

Definition count_slot (F : nat) (slot : option pte_directory) : nat :=
  from_option (count_directory F) 0 slot.

Definition count_pagetable (F : nat) (pt : pagetable) : nat :=
  sum_list_with (count_slot F) pt.

Definition count_process (hp : list process) (F : nat) (h : nat) : nat :=
  from_option (λ q, count_pagetable F (p_pagetable q)) 0 (hp !! h).

(** All processes: the current one and those of the ready list. *)
Definition all_processes (st : machine) : list nat :=
  current st :: processes st.

(** The number of valid entries, over all processes, that map frame [F]. *)
Definition mappings (st : machine) (F : nat) : nat :=
  sum_list_with (count_process (heap st) F) (all_processes st).

(** [mapcounts[F]]; there is no counter, hence no reference, outside the
    array. *)
Definition mapcount (st : machine) (F : nat) : Z :=
  default 0%Z (mapcounts st !! F).

Definition refcount_ok (st : machine) : Prop :=
  ∀ F, mapcount st F = Z.of_nat (mappings st F).

(** The current process and the ready list partition the processes that
    exist, and [ptbr] is the current process's page table. *)
Definition sched_ok (st : machine) : Prop :=
  ptbr st = current st ∧
  NoDup (all_processes st) ∧
  ∀ h, h ∈ all_processes st ↔ h < length (heap st).

(** The arrays have their declared sizes and the counters are
    [unsigned int] values. *)
Definition directory_shape (slot : option pte_directory) : Prop :=
  ∀ pd, slot = Some pd → length pd = NR_PTES_PER_PAGE.

Definition pagetable_shape (pt : pagetable) : Prop :=
  length pt = NR_PTES_PER_PAGE ∧ Forall directory_shape pt.

Definition shape_ok (st : machine) : Prop :=
  0 < NR_PTES_PER_PAGE ∧
  length (mapcounts st) = NR_PAGEFRAMES ∧
  Forall (λ c, (0 ≤ c < 2 ^ 32)%Z) (mapcounts st) ∧
  Forall (λ q, pagetable_shape (p_pagetable q)) (heap st).

Definition machine_inv (st : machine) : Prop :=
  sched_ok st ∧ shape_ok st ∧ refcount_ok st.

(** The frame a virtual page is mapped to, if it is mapped. *)
Definition mapped_frame (pt : pagetable) (vpn : nat) : option nat :=
  e ← lookup_pte pt vpn; if valid e then Some (pfn e) else None.

(** The current process has a valid entry for [vpn]. *)
Definition page_mapped (st : machine) (vpn : nat) : Prop :=
  ∃ q e, heap st !! current st = Some q ∧
         lookup_pte (p_pagetable q) vpn = Some e ∧ valid e = true.

(** What the fork loop leaves in the parent's entry and writes to the
    child's. *)
Definition cow_protect (e : pte) : pte :=
  if valid e && writable e then mk_pte true false (pfn e) true else e.

Definition child_pte (unwritten : pte) (e : pte) : pte :=
  if valid e
  then mk_pte true (writable (cow_protect e)) (pfn e) (private (cow_protect e))
  else unwritten.

(** Some process of the ready list has pid [p]. *)
Definition pid_ready (st : machine) (p : nat) : Prop :=
  ∃ h q, h ∈ processes st ∧ heap st !! h = Some q ∧ pid q = p.

(** The page tables after a fork: the parent's and the child's. *)
Definition map_slot (f : pte → pte) (slot : option pte_directory)
  : option pte_directory :=
  match slot with Some pd => Some (f <$> pd) | None => None end.

Definition protect_pagetable (pt : pagetable) : pagetable :=
  map_slot cow_protect <$> pt.

Definition child_slot (m : fresh_memory) (i : nat)
    (slot : option pte_directory) : option pte_directory :=
  match slot with
  | Some pd => Some (imap (λ j, child_pte (fresh_pte m i j)) pd)
  | None => fresh_slot m i
  end.

Definition child_pagetable (m : fresh_memory) (pt : pagetable) : pagetable :=
  imap (child_slot m) pt.

(** Fresh memory in which the program finds no pointer and no valid entry;
    zero-filled memory is of this kind. *)
Definition fresh_clear (m : fresh_memory) : Prop :=
  (∀ i, fresh_slot m i = None) ∧ (∀ i j, valid (fresh_pte m i j) = false).

(** No frame is mapped by two entries of one page table. *)
Definition frames_distinct (pt : pagetable) : Prop :=
  ∀ F, count_pagetable F pt ≤ 1.

(** No counter wraps around when every valid entry of [pt] adds one
    reference to its frame. *)
Definition fork_fits (st : machine) (pt : pagetable) : Prop :=
  ∀ F, (mapcount st F + Z.of_nat (count_pagetable F pt) < 2 ^ 32)%Z.

(** The effect of a fork loop on the counters: every counter stays an
    [unsigned int], and a counter that does not wrap grows by the number
    [n F] of entries the loop has met for its frame. *)
Definition counters_grow (n : nat → nat) (mc mc' : list Z) : Prop :=
  length mc' = length mc ∧
  (Forall (λ c, (0 ≤ c < 2 ^ 32)%Z) mc →
   Forall (λ c, (0 ≤ c < 2 ^ 32)%Z) mc' ∧
   ∀ F, (default 0 (mc !! F) + Z.of_nat (n F) < 2 ^ 32)%Z →
        default 0%Z (mc' !! F) = (default 0 (mc !! F) + Z.of_nat (n F))%Z).

(** Every valid, writable entry of every process names a frame whose
    counter is 1. *)
Definition writable_exclusive (st : machine) : Prop :=
  ∀ h q vpn e,
    h ∈ all_processes st → heap st !! h = Some q →
    lookup_pte (p_pagetable q) vpn = Some e →
    valid e = true → writable e = true →
    mapcount st (pfn e) = 1%Z.



End Invariants.

(** ** A small configuration and some of its states

    Two entries per directory, four frames; [RW_READ] is 1, so that 3 is the
    read-write mode and 2 a write-only access. *)

Definition small_cfg : vm_config :=
  {| NR_PTES_PER_PAGE := 2; NR_PAGEFRAMES := 4; RW_READ := 1 |}.

(** One process, nothing mapped. *)
Definition ex_boot : machine :=
  mk_machine [mk_process 0 [None; None]] [] 0 0 [0; 0; 0; 0]%Z.

(** After [alloc_page 0 3]. *)
Definition ex_mapped : machine :=
  mk_machine
    [mk_process 0 [Some [mk_pte true true 0 false; zero_pte]; None]]
    [] 0 0 [1; 0; 0; 0]%Z.

Definition shared_pt : pagetable :=
  [Some [mk_pte true false 0 true; zero_pte]; None].

(** After [switch_process 7] from [ex_mapped]: parent and child share
    frame 0. *)
Definition ex_forked : machine :=
  mk_machine [mk_process 0 shared_pt; mk_process 7 shared_pt]
    [0] 1 1 [2; 0; 0; 0]%Z.

(** After a further [switch_process 8]: three processes share frame 0. *)
Definition ex_forked2 : machine :=
  mk_machine
    [mk_process 0 shared_pt; mk_process 7 shared_pt; mk_process 8 shared_pt]
    [1; 0] 2 2 [3; 0; 0; 0]%Z.

(** After [free_page 0] in the third process. *)
Definition ex_freed : machine :=
  mk_machine
    [mk_process 0 shared_pt; mk_process 7 shared_pt;
     mk_process 8 [Some [mk_pte false false 0 true; zero_pte]; None]]
    [1; 0] 2 2 [2; 0; 0; 0]%Z.

(** After [switch_process 0] from [ex_boot]: two processes with pid 0. *)
Definition ex_twins : machine :=
  mk_machine [mk_process 0 [None; None]; mk_process 0 [None; None]]
    [0] 1 1 [0; 0; 0; 0]%Z.

(** After the child of [ex_forked] has taken a write fault on page 0 and
    the parent has been switched back in: the parent is the sole owner of
    frame 0, its entry still protected. *)
Definition ex_sole : machine :=
  mk_machine
    [mk_process 0 shared_pt;
     mk_process 7 [Some [mk_pte true true 1 false; zero_pte]; None]]
    [1] 0 0 [1; 1; 0; 0]%Z.

(** After [alloc_page 0 1] from [ex_boot]: page 0 mapped read-only. *)
Definition ex_read_only : machine :=
  mk_machine
    [mk_process 0 [Some [mk_pte true false 0 false; zero_pte]; None]]
    [] 0 0 [1; 0; 0; 0]%Z.

(** After [alloc_page 1 3] from [ex_mapped]. *)
Definition ex_mapped2 : machine :=
  mk_machine
    [mk_process 0
       [Some [mk_pte true true 0 false; mk_pte true true 1 false]; None]]
    [] 0 0 [1; 1; 0; 0]%Z.

(** After [free_page 0] from [ex_mapped2]. *)
Definition ex_half : machine :=
  mk_machine
    [mk_process 0
       [Some [mk_pte false false 0 false; mk_pte true true 1 false]; None]]
    [] 0 0 [0; 1; 0; 0]%Z.

(** After a write fault of the child on page 0 in [ex_forked]. *)
Definition ex_cow : machine :=
  mk_machine
    [mk_process 0 shared_pt;
     mk_process 7 [Some [mk_pte true true 1 false; zero_pte]; None]]
    [0] 1 1 [1; 1; 0; 0]%Z.

(** Pages 0 and 1 of one process mapped to the same frame, counted
    twice. *)
Definition ex_twice : machine :=
  mk_machine
    [mk_process 0
       [Some [mk_pte true true 0 false; mk_pte true true 0 false]; None]]
    [] 0 0 [2; 0; 0; 0]%Z.

(** After [alloc_page 0 3], [alloc_page 1 3], [switch_process 7] and a
    write fault of the child on each of the two pages: the four frames are
    in use and the second directory of the child is not allocated. *)
Definition ex_full : machine :=
  mk_machine
    [mk_process 0
       [Some [mk_pte true false 0 true; mk_pte true false 1 true]; None];
     mk_process 7
       [Some [mk_pte true true 2 false; mk_pte true true 3 false]; None]]
    [0] 1 1 [1; 1; 1; 1]%Z.

(** [ex_mapped] after a fork into memory that is not zero: the child has
    the two entries the loop wrote and, for the page the parent does not
    map, what the fresh directory held. *)
Definition ex_forked_dirty : machine :=
  mk_machine
    [mk_process 0 shared_pt;
     mk_process 7 [Some [mk_pte true false 0 true; mk_pte true false 7 false];
                   None]]
    [0] 1 1 [2; 0; 0; 0]%Z.

(** Tactics for the example states. *)

Ltac solve_Forall tac :=
  repeat (apply Forall_cons_2; [tac|]); apply Forall_nil_2.

Ltac solve_shape :=
  split; [reflexivity|];
  solve_Forall ltac:(intros ? ?; simplify_eq; reflexivity).

Ltac solve_refcount :=
  let F := fresh "F" in
  intros F; do 4 (destruct F as [|F]; [vm_compute; reflexivity|]);
  vm_compute; reflexivity.

Ltac solve_sched :=
  split; [reflexivity|]; split;
  [ apply (bool_decide_unpack _); vm_compute; exact I
  | let h := fresh "h" in
    intros h; unfold all_processes; simpl;
    rewrite ?elem_of_cons, elem_of_nil; lia ].

Ltac solve_machine_inv :=
  split; [solve_sched|]; split;
  [ split; [simpl; lia|]; split; [reflexivity|]; split;
    [ solve_Forall lia | solve_Forall solve_shape ]
  | solve_refcount ].

(** ** Basic facts about the operations *)

Section Facts.
Context `{cfg : vm_config}.

Lemma u32_small z : (0 ≤ z < 2 ^ 32)%Z → u32 z = z.
Proof. intros H. unfold u32. by apply Z.mod_small. Qed.

(** *** The scan for a free frame *)

Lemma scan_frames_bounds fuel mc num :
  num ≤ scan_frames fuel mc num ≤ num + fuel.
Proof.
  revert num. induction fuel as [|fuel IH]; intros num; simpl; [lia|].
  destruct (num <? NR_PAGEFRAMES); [|lia].
  destruct (mc !! num) as [c|]; [|lia].
  destruct (c =? 0)%Z; [lia|]. specialize (IH (S num)). lia.
Qed.

Lemma scan_frames_skipped fuel mc num i :
  num ≤ i < scan_frames fuel mc num →
  i < NR_PAGEFRAMES ∧ ∃ c, mc !! i = Some c ∧ c ≠ 0%Z.
Proof.
  revert num. induction fuel as [|fuel IH]; intros num; simpl; [lia|].
  destruct (num <? NR_PAGEFRAMES) eqn:Hlt; [|lia].
  apply Nat.ltb_lt in Hlt.
  destruct (mc !! num) as [c|] eqn:Hc; [|lia].
  destruct (c =? 0)%Z eqn:Hz; [lia|]. apply Z.eqb_neq in Hz.
  intros Hi. destruct (decide (i = num)) as [->|Hne]; [eauto|].
  apply (IH (S num)). lia.
Qed.

Lemma scan_frames_stop fuel mc num :
  scan_frames fuel mc num < num + fuel →
  scan_frames fuel mc num < NR_PAGEFRAMES →
  mc !! scan_frames fuel mc num = Some 0%Z ∨
  mc !! scan_frames fuel mc num = None.
Proof.
  revert num. induction fuel as [|fuel IH]; intros num; simpl; [lia|].
  destruct (num <? NR_PAGEFRAMES) eqn:Hlt.
  - destruct (mc !! num) as [c|] eqn:Hc; [|by right].
    destruct (c =? 0)%Z eqn:Hz.
    + apply Z.eqb_eq in Hz. subst c. by left.
    + intros H1 H2. apply IH; [lia|done].
  - apply Nat.ltb_ge in Hlt. lia.
Qed.

Lemma first_free_le mc : first_free mc ≤ NR_PAGEFRAMES.
Proof. unfold first_free. pose proof (scan_frames_bounds NR_PAGEFRAMES mc 0). lia. Qed.

Lemma first_free_skipped mc i :
  i < first_free mc → ∃ c, mc !! i = Some c ∧ c ≠ 0%Z.
Proof.
  intros H. apply (scan_frames_skipped NR_PAGEFRAMES mc 0 i).
  unfold first_free in H. lia.
Qed.

Lemma first_free_zero mc :
  length mc = NR_PAGEFRAMES → first_free mc < NR_PAGEFRAMES →
  mc !! first_free mc = Some 0%Z.
Proof.
  intros Hlen Hlt. unfold first_free in *.
  destruct (scan_frames_stop NR_PAGEFRAMES mc 0) as [H|H]; [lia|done|done|].
  apply lookup_ge_None in H. lia.
Qed.

(** The scan returns the least index of a zero counter ... *)
Lemma first_free_least mc F :
  length mc = NR_PAGEFRAMES →
  mc !! F = Some 0%Z → (∀ i, i < F → mc !! i ≠ Some 0%Z) →
  first_free mc = F.
Proof.
  intros Hlen HF Hleast.
  assert (F < NR_PAGEFRAMES) as HFlt by (apply lookup_lt_Some in HF; lia).
  destruct (lt_eq_lt_dec (first_free mc) F) as [[Hlt|Heq]|Hgt]; [|done|].
  - exfalso. apply (Hleast (first_free mc) Hlt).
    apply first_free_zero; [done|lia].
  - exfalso. destruct (first_free_skipped mc F Hgt) as (c & Hc & Hnz).
    congruence.
Qed.

(** ... and [NR_PAGEFRAMES] when there is none. *)
Lemma first_free_none mc :
  length mc = NR_PAGEFRAMES →
  (∀ i, i < NR_PAGEFRAMES → mc !! i ≠ Some 0%Z) →
  first_free mc = NR_PAGEFRAMES.
Proof.
  intros Hlen Hnone. pose proof (first_free_le mc) as Hle.
  destruct (decide (first_free mc = NR_PAGEFRAMES)) as [|Hne]; [done|].
  exfalso. apply (Hnone (first_free mc)); [lia|].
  apply first_free_zero; [done|lia].
Qed.

(** *** Reading and writing one entry *)

Lemma vpn_split vpn vpn' :
  0 < NR_PTES_PER_PAGE →
  pd_index_of vpn = pd_index_of vpn' →
  pte_index_of vpn = pte_index_of vpn' → vpn = vpn'.
Proof.
  unfold pd_index_of, pte_index_of. intros Hpos Hd Hm.
  rewrite (Nat.div_mod_eq vpn NR_PTES_PER_PAGE).
  rewrite (Nat.div_mod_eq vpn' NR_PTES_PER_PAGE). by rewrite Hd, Hm.
Qed.

Lemma lookup_store_eq pt vpn old e :
  lookup_pte pt vpn = Some old →
  lookup_pte (store_pte pt vpn e) vpn = Some e.
Proof.
  unfold lookup_pte, store_pte. intros H.
  destruct (pt !! pd_index_of vpn) as [[pd|]|] eqn:Hs; simplify_eq/=.
  rewrite list_lookup_insert_eq by (by eapply lookup_lt_Some). simpl.
  apply list_lookup_insert_eq. by eapply lookup_lt_Some.
Qed.

Lemma lookup_store_ne pt vpn vpn' e :
  0 < NR_PTES_PER_PAGE → vpn ≠ vpn' →
  lookup_pte (store_pte pt vpn e) vpn' = lookup_pte pt vpn'.
Proof.
  unfold lookup_pte, store_pte. intros Hpos Hne.
  destruct (pt !! pd_index_of vpn) as [[pd|]|] eqn:Hs; try done.
  destruct (decide (pd_index_of vpn = pd_index_of vpn')) as [Heq|Hd].
  - rewrite <- Heq, Hs.
    rewrite list_lookup_insert_eq by (by eapply lookup_lt_Some). simpl.
    apply list_lookup_insert_ne. intros Hm. by apply Hne, vpn_split.
  - by rewrite list_lookup_insert_ne.
Qed.

Lemma ensure_directory_keeps m pt vpn pt1 vpn' e :
  ensure_directory m pt vpn = Some pt1 →
  lookup_pte pt vpn' = Some e → lookup_pte pt1 vpn' = Some e.
Proof.
  unfold ensure_directory, lookup_pte. intros H1 H2.
  destruct (pt !! pd_index_of vpn) as [[pd|]|] eqn:Hs; simplify_eq/=; [done|].
  destruct (decide (pd_index_of vpn = pd_index_of vpn')) as [Heq|Hd].
  - rewrite <- Heq, Hs in H2. done.
  - by rewrite list_lookup_insert_ne.
Qed.

(** The entries of a fresh directory. *)
Lemma lookup_malloc_pte_directory m i j :
  j < NR_PTES_PER_PAGE → malloc_pte_directory m i !! j = Some (fresh_pte m i j).
Proof.
  intros Hj. unfold malloc_pte_directory.
  by rewrite list_lookup_fmap, lookup_seq_lt.
Qed.

Lemma length_malloc_pte_directory m i :
  length (malloc_pte_directory m i) = NR_PTES_PER_PAGE.
Proof. unfold malloc_pte_directory. by rewrite length_fmap, length_seq. Qed.

(** After [ensure_directory] the entry of [vpn] is the one that was there,
    or the one of the fresh directory. *)
Lemma ensure_directory_lookup m pt vpn pt1 :
  0 < NR_PTES_PER_PAGE →
  ensure_directory m pt vpn = Some pt1 →
  lookup_pte pt1 vpn =
    match lookup_pte pt vpn with
    | Some e => Some e
    | None =>
        match pt !! pd_index_of vpn with
        | Some None => Some (fresh_pte m (pd_index_of vpn) (pte_index_of vpn))
        | _ => None
        end
    end.
Proof.
  unfold ensure_directory, lookup_pte. intros Hpos H.
  destruct (pt !! pd_index_of vpn) as [[pd|]|] eqn:Hs; simplify_eq/=.
  - rewrite Hs. simpl. by destruct (pd !! pte_index_of vpn).
  - rewrite list_lookup_insert_eq by (by eapply lookup_lt_Some). simpl.
    apply lookup_malloc_pte_directory. unfold pte_index_of.
    by apply Nat.mod_upper_bound, Nat.neq_0_lt_0.
Qed.

Lemma read_write_ptbr st pt pt' mc :
  read_ptbr st = Some pt → read_ptbr (write_ptbr st pt' mc) = Some pt'.
Proof.
  unfold read_ptbr, write_ptbr, set_pagetable. simpl.
  destruct (heap st !! ptbr st) as [q|] eqn:Hq; [|done]. intros _.
  rewrite list_lookup_insert_eq by (by eapply lookup_lt_Some). done.
Qed.

Lemma lookup_set_pagetable_ne h h' pt hp :
  h ≠ h' → set_pagetable h pt hp !! h' = hp !! h'.
Proof.
  intros Hne. unfold set_pagetable. destruct (hp !! h); [|done].
  by apply list_lookup_insert_ne.
Qed.

Lemma lookup_set_pagetable_eq h pt hp q :
  hp !! h = Some q →
  set_pagetable h pt hp !! h = Some (mk_process (pid q) pt).
Proof.
  intros Hq. unfold set_pagetable. rewrite Hq.
  apply list_lookup_insert_eq. by eapply lookup_lt_Some.
Qed.

Lemma length_set_pagetable h pt hp :
  length (set_pagetable h pt hp) = length hp.
Proof.
  unfold set_pagetable. destruct (hp !! h); [|done]. apply length_insert.
Qed.

Lemma pd_index_lt vpn :
  0 < NR_PTES_PER_PAGE →
  vpn < NR_PTES_PER_PAGE * NR_PTES_PER_PAGE →
  pd_index_of vpn < NR_PTES_PER_PAGE.
Proof.
  intros Hpos Hlt. unfold pd_index_of.
  apply Nat.Div0.div_lt_upper_bound. lia.
Qed.

Lemma pte_index_lt vpn :
  0 < NR_PTES_PER_PAGE → pte_index_of vpn < NR_PTES_PER_PAGE.
Proof. intros Hpos. unfold pte_index_of. apply Nat.mod_upper_bound. lia. Qed.

Lemma pagetable_shape_slot pt i slot :
  pagetable_shape pt → pt !! i = Some slot → directory_shape slot.
Proof.
  intros [_ Hall] Hs. rewrite Forall_lookup in Hall. by eapply Hall.
Qed.

(** Nothing is allocated for a page that has an entry. *)
Lemma ensure_directory_present m pt vpn pt1 e :
  ensure_directory m pt vpn = Some pt1 → lookup_pte pt vpn = Some e →
  pt1 = pt.
Proof.
  unfold ensure_directory, lookup_pte.
  destruct (pt !! pd_index_of vpn) as [[pd|]|]; intros; by simplify_eq/=.
Qed.

Lemma lookup_malloc_pte_directory_inv m i j e :
  malloc_pte_directory m i !! j = Some e → e = fresh_pte m i j.
Proof.
  unfold malloc_pte_directory. rewrite list_lookup_fmap.
  destruct (seq 0 NR_PTES_PER_PAGE !! j) as [k|] eqn:Hk; [|done].
  apply lookup_seq in Hk as [-> _]. by intros ?; simplify_eq/=.
Qed.

(** An entry that appears where there was none is an entry of the fresh
    directory. *)
Lemma ensure_directory_fresh m pt vpn pt1 vpn' e :
  ensure_directory m pt vpn = Some pt1 →
  lookup_pte pt vpn' = None → lookup_pte pt1 vpn' = Some e →
  pd_index_of vpn' = pd_index_of vpn ∧
  e = fresh_pte m (pd_index_of vpn) (pte_index_of vpn').
Proof.
  unfold ensure_directory, lookup_pte.
  destruct (pt !! pd_index_of vpn) as [[pd|]|] eqn:Hs; intros H Hn He;
    simplify_eq/=.
  destruct (decide (pd_index_of vpn = pd_index_of vpn')) as [Heq|Hd].
  - split; [done|]. rewrite <- Heq in He.
    rewrite list_lookup_insert_eq in He by (by eapply lookup_lt_Some).
    simpl in He. by apply lookup_malloc_pte_directory_inv.
  - rewrite list_lookup_insert_ne in He by done. congruence.
Qed.

(** In a page table of the declared shape, [alloc_page] finds the entry
    of [vpn]: the one that was there, or the one of a fresh directory. *)
Lemma ensure_directory_entry m pt vpn :
  0 < NR_PTES_PER_PAGE →
  vpn < NR_PTES_PER_PAGE * NR_PTES_PER_PAGE →
  pagetable_shape pt →
  ∃ pt1 old, ensure_directory m pt vpn = Some pt1 ∧
    lookup_pte pt1 vpn = Some old ∧
    (lookup_pte pt vpn = Some old ∨
     lookup_pte pt vpn = None ∧
     old = fresh_pte m (pd_index_of vpn) (pte_index_of vpn)).
Proof.
  intros Hpos Hvpn Hshape.
  destruct (lookup_lt_is_Some_2 pt (pd_index_of vpn)) as [slot Hslot].
  { destruct Hshape as [-> _]. by apply pd_index_lt. }
  assert (∃ pt1, ensure_directory m pt vpn = Some pt1) as [pt1 Hpt1].
  { unfold ensure_directory. rewrite Hslot. simpl. destruct slot; eauto. }
  exists pt1. pose proof (ensure_directory_lookup m pt vpn pt1 Hpos Hpt1) as Hl.
  destruct slot as [pd|].
  - destruct (lookup_lt_is_Some_2 pd (pte_index_of vpn)) as [old Hold].
    { rewrite (pagetable_shape_slot _ _ _ Hshape Hslot pd eq_refl).
      by apply pte_index_lt. }
    assert (lookup_pte pt vpn = Some old) as Hlk.
    { unfold lookup_pte. rewrite Hslot. done. }
    rewrite Hlk in Hl. exists old. auto.
  - assert (lookup_pte pt vpn = None) as Hlk.
    { unfold lookup_pte. rewrite Hslot. done. }
    rewrite Hlk, Hslot in Hl. eexists. eauto.
Qed.

Lemma heap_write_ptbr_ne st pt mc h :
  h ≠ ptbr st → heap (write_ptbr st pt mc) !! h = heap st !! h.
Proof. intros Hne. simpl. by apply lookup_set_pagetable_ne. Qed.

Lemma mapped_frame_ensure m pt vpn pt1 vpn' :
  0 < NR_PTES_PER_PAGE →
  (∀ j, valid (fresh_pte m (pd_index_of vpn) j) = false) →
  ensure_directory m pt vpn = Some pt1 →
  mapped_frame pt1 vpn' = mapped_frame pt vpn'.
Proof.
  intros Hpos Hclear H. unfold mapped_frame.
  destruct (lookup_pte pt vpn') as [e|] eqn:He.
  { by rewrite (ensure_directory_keeps _ _ _ _ _ _ H He). }
  revert H He. unfold ensure_directory, lookup_pte.
  destruct (pt !! pd_index_of vpn) as [[pd|]|] eqn:Hs; intros; simplify_eq/=.
  { by rewrite He. }
  destruct (decide (pd_index_of vpn = pd_index_of vpn')) as [Heq|Hd].
  - rewrite <- Heq.
    rewrite list_lookup_insert_eq by (by eapply lookup_lt_Some). simpl.
    rewrite lookup_malloc_pte_directory by (by apply pte_index_lt).
    simpl. by rewrite Hclear.
  - rewrite list_lookup_insert_ne by done. by rewrite He.
Qed.

(** *** Counting mappings *)

Lemma sum_list_with_insert {A} (f : A → nat) (l : list A) i x y :
  l !! i = Some x →
  sum_list_with f (<[i:=y]> l) + f x = sum_list_with f l + f y.
Proof.
  revert i. induction l as [|a l IH]; intros [|i] H; simplify_eq/=; [lia|].
  specialize (IH i H). lia.
Qed.

Lemma sum_list_with_agree {A} (f g : A → nat) (l : list A) :
  (∀ x, x ∈ l → f x = g x) → sum_list_with f l = sum_list_with g l.
Proof.
  induction l as [|a l IH]; intros H; simpl; [done|].
  rewrite (H a), IH; [done| |by left]. intros x Hx. apply H. by right.
Qed.

Lemma sum_list_with_0 {A} (f : A → nat) (l : list A) :
  Forall (λ x, f x = 0) l → sum_list_with f l = 0.
Proof. induction 1 as [|x l Hx _ IH]; simpl; [done|]. by rewrite Hx, IH. Qed.

Lemma count_directory_malloc m i F :
  (∀ j, valid (fresh_pte m i j) = false) →
  count_directory F (malloc_pte_directory m i) = 0.
Proof.
  intros Hclear. unfold count_directory, malloc_pte_directory.
  apply sum_list_with_0, Forall_fmap, Forall_forall. intros j _. simpl.
  unfold maps_frame. by rewrite Hclear.
Qed.

Lemma count_pagetable_store F pt vpn old e :
  lookup_pte pt vpn = Some old →
  count_pagetable F (store_pte pt vpn e) + maps_frame F old =
  count_pagetable F pt + maps_frame F e.
Proof.
  unfold lookup_pte, store_pte, count_pagetable. intros H.
  destruct (pt !! pd_index_of vpn) as [[pd|]|] eqn:Hs; simplify_eq/=.
  pose proof (sum_list_with_insert (count_slot F) pt _ _
    (Some (<[pte_index_of vpn := e]> pd)) Hs) as H1.
  pose proof (sum_list_with_insert (maps_frame F) pd _ _ e H) as H2.
  unfold count_slot, count_directory in *. simpl in *. lia.
Qed.

Lemma count_pagetable_ensure m F pt vpn pt1 :
  (∀ j, valid (fresh_pte m (pd_index_of vpn) j) = false) →
  ensure_directory m pt vpn = Some pt1 →
  count_pagetable F pt1 = count_pagetable F pt.
Proof.
  unfold ensure_directory, count_pagetable. intros Hclear H.
  destruct (pt !! pd_index_of vpn) as [[pd|]|] eqn:Hs; simplify_eq/=; [done|].
  pose proof (sum_list_with_insert (count_slot F) pt _ _
    (Some (malloc_pte_directory m (pd_index_of vpn))) Hs) as H1.
  simpl in H1. rewrite count_directory_malloc in H1 by done. lia.
Qed.

(** An entry is counted in its page table. *)
Lemma maps_frame_le_count F pt vpn e :
  lookup_pte pt vpn = Some e → maps_frame F e ≤ count_pagetable F pt.
Proof.
  intros H. pose proof (count_pagetable_store F pt vpn e zero_pte H) as Hc.
  unfold maps_frame at 2 in Hc. simpl in Hc. lia.
Qed.

Lemma mappings_unfold st F :
  mappings st F =
  count_process (heap st) F (current st) +
  sum_list_with (count_process (heap st) F) (processes st).
Proof. done. Qed.

Lemma count_process_lookup hp F h q :
  hp !! h = Some q → count_process hp F h = count_pagetable F (p_pagetable q).
Proof. intros H. unfold count_process. by rewrite H. Qed.

Lemma sched_ok_current st : sched_ok st → is_Some (heap st !! current st).
Proof.
  intros (_ & _ & Hall). apply lookup_lt_is_Some, Hall. by left.
Qed.

Lemma sched_ok_ready_ne st h :
  sched_ok st → h ∈ processes st → h ≠ current st.
Proof.
  intros (_ & Hnd & _) Hh ->. unfold all_processes in Hnd.
  apply NoDup_cons in Hnd. tauto.
Qed.

(** Writing the installed page table changes the number of mappings by
    the difference of the two tables. *)
Lemma mappings_write_ptbr st pt pt' mc F :
  sched_ok st → read_ptbr st = Some pt →
  mappings (write_ptbr st pt' mc) F + count_pagetable F pt =
  mappings st F + count_pagetable F pt'.
Proof.
  intros Hs Hpt. pose proof Hs as (Hptbr & _ & _).
  unfold read_ptbr in Hpt. rewrite Hptbr in Hpt.
  destruct (heap st !! current st) as [q|] eqn:Hq; simplify_eq/=.
  rewrite !mappings_unfold. simpl. rewrite Hptbr.
  rewrite (count_process_lookup _ _ _ _ (lookup_set_pagetable_eq _ pt' _ _ Hq)).
  rewrite (count_process_lookup _ _ _ _ Hq). simpl.
  rewrite (sum_list_with_agree
    (count_process (set_pagetable (current st) pt' (heap st)) F)
    (count_process (heap st) F)); [lia|].
  intros h Hh. unfold count_process.
  rewrite lookup_set_pagetable_ne; [done|].
  intros Heq. by apply (sched_ok_ready_ne st h Hs Hh).
Qed.

Lemma mapcount_insert (mc : list Z) f c v F :
  mc !! f = Some c →
  default 0%Z (<[f:=v]> mc !! F) =
  if decide (F = f) then v else default 0%Z (mc !! F).
Proof.
  intros Hc. case_decide as HF.
  - subst F. rewrite list_lookup_insert_eq by (by eapply lookup_lt_Some). done.
  - by rewrite list_lookup_insert_ne.
Qed.

Lemma maps_frame_cases F e :
  maps_frame F e = if decide (valid e = true ∧ pfn e = F) then 1 else 0.
Proof.
  unfold maps_frame. case_decide as H.
  - destruct H as [-> ->]. by rewrite Nat.eqb_refl.
  - destruct (valid e); [|done]. simpl.
    destruct (pfn e =? F) eqn:HF; [|done]. apply Nat.eqb_eq in HF. tauto.
Qed.

(** *** Shapes are kept *)

Lemma pagetable_shape_store pt vpn e :
  pagetable_shape pt → pagetable_shape (store_pte pt vpn e).
Proof.
  intros [Hlen Hall]. unfold store_pte.
  destruct (pt !! pd_index_of vpn) as [[pd|]|] eqn:Hs; try done.
  split; [by rewrite length_insert|].
  apply Forall_insert; [done|]. intros pd' ?; simplify_eq.
  rewrite length_insert. rewrite Forall_lookup in Hall.
  by apply (Hall _ _ Hs).
Qed.

Lemma pagetable_shape_ensure m pt vpn pt1 :
  pagetable_shape pt → ensure_directory m pt vpn = Some pt1 →
  pagetable_shape pt1.
Proof.
  intros [Hlen Hall]. unfold ensure_directory.
  destruct (pt !! pd_index_of vpn) as [[pd|]|] eqn:Hs; intros; simplify_eq/=;
    [done|].
  split; [by rewrite length_insert|].
  apply Forall_insert; [done|]. intros pd' ?; simplify_eq.
  apply length_malloc_pte_directory.
Qed.

Lemma u32_range z : (0 ≤ u32 z < 2 ^ 32)%Z.
Proof. unfold u32. apply Z.mod_pos_bound. lia. Qed.

Lemma shape_ok_read st pt :
  shape_ok st → read_ptbr st = Some pt → pagetable_shape pt.
Proof.
  intros (_ & _ & _ & Hall) Hpt. unfold read_ptbr in Hpt.
  destruct (heap st !! ptbr st) as [q|] eqn:Hq; simplify_eq/=.
  rewrite Forall_lookup in Hall. by apply (Hall _ _ Hq).
Qed.

Lemma shape_ok_write st pt' mc :
  shape_ok st → pagetable_shape pt' →
  length mc = NR_PAGEFRAMES → Forall (λ c, (0 ≤ c < 2 ^ 32)%Z) mc →
  shape_ok (write_ptbr st pt' mc).
Proof.
  intros (Hpos & _ & _ & Hall) Hpt' Hlen Hmc.
  split; [done|]. split; [done|]. split; [done|]. simpl.
  unfold set_pagetable. destruct (heap st !! ptbr st); [|done].
  by apply Forall_insert.
Qed.

Lemma sched_ok_write st pt' mc : sched_ok st → sched_ok (write_ptbr st pt' mc).
Proof.
  intros (Hptbr & Hnd & Hall). split; [done|]. split; [done|].
  intros h. simpl. rewrite length_set_pagetable. apply Hall.
Qed.

Lemma read_ptbr_current st q :
  ptbr st = current st → heap st !! current st = Some q →
  read_ptbr st = Some (p_pagetable q).
Proof. intros Hp Hq. unfold read_ptbr. rewrite Hp, Hq. done. Qed.

(** *** Each operation keeps a consistent machine consistent *)

Lemma mapped_counted st q vpn e :
  sched_ok st → refcount_ok st →
  heap st !! current st = Some q →
  lookup_pte (p_pagetable q) vpn = Some e → valid e = true →
  ∃ c, mapcounts st !! pfn e = Some c ∧ (1 ≤ c)%Z.
Proof.
  intros Hs Hrc Hq He Hv.
  pose proof (maps_frame_le_count (pfn e) _ _ _ He) as H1.
  rewrite maps_frame_cases in H1. rewrite decide_True in H1 by done.
  specialize (Hrc (pfn e)). rewrite mappings_unfold in Hrc.
  rewrite (count_process_lookup _ _ _ _ Hq) in Hrc. unfold mapcount in Hrc.
  destruct (mapcounts st !! pfn e) as [c|]; simpl in Hrc; [|lia].
  exists c. split; [done|lia].
Qed.

Lemma alloc_page_inv m vpn rw st :
  fresh_clear m →
  machine_inv st →
  vpn < NR_PTES_PER_PAGE * NR_PTES_PER_PAGE →
  ¬ page_mapped st vpn →
  ∃ r st', alloc_page m vpn rw st = Some (r, st') ∧ machine_inv st'.
Proof.
  intros [_ Hclear] (Hs & Hsh & Hrc) Hvpn Hfree.
  destruct (sched_ok_current st Hs) as [q Hq].
  pose proof Hs as (Hptbr & _).
  pose proof (read_ptbr_current _ _ Hptbr Hq) as Hpt.
  pose proof (shape_ok_read _ _ Hsh Hpt) as Hshape.
  pose proof Hsh as (Hpos & Hlen & Hmc & _).
  destruct (ensure_directory_entry m _ vpn Hpos Hvpn Hshape)
    as (pt1 & old & Hens & Hold & Hcase).
  assert (valid old = false) as Hinv.
  { destruct Hcase as [Hc|[_ ->]]; [|done].
    destruct (valid old) eqn:Hv; [|done]. destruct Hfree. by exists q, old. }
  pose proof (pagetable_shape_ensure _ _ _ _ Hshape Hens) as Hshape1.
  unfold alloc_page. rewrite Hpt. simpl. rewrite Hens. simpl.
  rewrite Hold. simpl.
  destruct (first_free (mapcounts st) =? NR_PAGEFRAMES) eqn:Hff.
  - eexists _, _. split; [done|]. split; [by apply sched_ok_write|].
    split; [by apply shape_ok_write|].
    intros F.
    pose proof (mappings_write_ptbr st _ pt1 (mapcounts st) F Hs Hpt) as Hm.
    rewrite (count_pagetable_ensure m F _ _ _ (Hclear _) Hens) in Hm.
    pose proof (Hrc F) as HF. unfold mapcount in *. simpl. lia.
  - apply Nat.eqb_neq in Hff. pose proof (first_free_le (mapcounts st)).
    assert (mapcounts st !! first_free (mapcounts st) = Some 0%Z) as Hz
      by (apply first_free_zero; [done|lia]).
    unfold mc_inc. rewrite Hz. simpl. rewrite u32_small by lia.
    eexists _, _. split; [done|]. split; [by apply sched_ok_write|].
    split.
    { apply shape_ok_write; [done|by apply pagetable_shape_store| |].
      - by rewrite length_insert.
      - apply Forall_insert; [done|lia]. }
    intros F.
    pose proof (mappings_write_ptbr st _
      (store_pte pt1 vpn
         (mk_pte true (rw =? 3)%Z (first_free (mapcounts st)) false))
      (<[first_free (mapcounts st) := (0 + 1)%Z]> (mapcounts st)) F Hs Hpt)
      as Hm.
    pose proof (count_pagetable_store F pt1 vpn old
      (mk_pte true (rw =? 3)%Z (first_free (mapcounts st)) false) Hold) as Hst.
    rewrite (count_pagetable_ensure m F _ _ _ (Hclear _) Hens) in Hst.
    rewrite !maps_frame_cases in Hst. simpl in Hst.
    rewrite (decide_False (P := valid old = true ∧ _)) in Hst
      by (rewrite Hinv; intros [? _]; done).
    pose proof (Hrc F) as HF. pose proof (Hrc (first_free (mapcounts st))) as H0.
    unfold mapcount in *. simpl.
    rewrite (mapcount_insert _ _ _ _ F Hz).
    rewrite Hz in H0. simpl in H0.
    destruct (decide (F = first_free (mapcounts st))) as [->|Hne].
    + rewrite decide_True in Hst by done. lia.
    + rewrite decide_False in Hst by (intros [_ ?]; congruence). lia.
Qed.

Lemma free_page_inv vpn st :
  machine_inv st → page_mapped st vpn →
  ∃ st', free_page vpn st = Some st' ∧ machine_inv st'.
Proof.
  intros (Hs & Hsh & Hrc) (q & e & Hq & He & Hv).
  pose proof Hs as (Hptbr & _).
  pose proof (read_ptbr_current _ _ Hptbr Hq) as Hpt.
  pose proof (shape_ok_read _ _ Hsh Hpt) as Hshape.
  pose proof Hsh as (Hpos & Hlen & Hmc & _).
  destruct (mapped_counted _ _ _ _ Hs Hrc Hq He Hv) as (c & Hc & Hc1).
  assert (0 ≤ c < 2 ^ 32)%Z as Hcr.
  { rewrite Forall_lookup in Hmc. by apply (Hmc _ _ Hc). }
  unfold free_page. rewrite Hpt. simpl. rewrite He. simpl.
  unfold mc_dec. rewrite Hc. simpl. rewrite u32_small by lia.
  eexists. split; [done|]. split; [by apply sched_ok_write|].
  split.
  { apply shape_ok_write; [done|by apply pagetable_shape_store| |].
    - by rewrite length_insert.
    - apply Forall_insert; [done|lia]. }
  intros F.
  pose proof (mappings_write_ptbr st _
    (store_pte (p_pagetable q) vpn (mk_pte false false 0 (private e)))
    (<[pfn e := (c - 1)%Z]> (mapcounts st)) F Hs Hpt) as Hm.
  pose proof (count_pagetable_store F _ vpn e
    (mk_pte false false 0 (private e)) He) as Hst.
  rewrite !maps_frame_cases in Hst. simpl in Hst.
  pose proof (Hrc F) as HF.
  unfold mapcount in *. simpl.
  rewrite (mapcount_insert _ _ _ _ F Hc).
  destruct (decide (F = pfn e)) as [->|Hne].
  - rewrite decide_True in Hst by done. rewrite Hc in HF. simpl in HF. lia.
  - rewrite decide_False in Hst by (intros [_ ?]; congruence). lia.
Qed.

Lemma handle_page_fault_inv vpn rw st :
  machine_inv st → rw = RW_READ ∨ page_mapped st vpn →
  ∃ b st', handle_page_fault vpn rw st = Some (b, st') ∧ machine_inv st'.
Proof.
  intros Hinv Hpre. unfold handle_page_fault.
  destruct (rw =? RW_READ)%Z eqn:Hrw; [by eexists _, _|].
  destruct Hpre as [->|(q & e & Hq & He & Hv)];
    [by rewrite Z.eqb_refl in Hrw|].
  pose proof Hinv as (Hs & Hsh & Hrc).
  pose proof Hs as (Hptbr & _).
  pose proof (read_ptbr_current _ _ Hptbr Hq) as Hpt.
  pose proof (shape_ok_read _ _ Hsh Hpt) as Hshape.
  pose proof Hsh as (Hpos & Hlen & Hmc & _).
  rewrite Hpt. simpl. rewrite He. simpl.
  destruct (negb (writable e) && private e); [|by eexists _, _].
  destruct (mapped_counted _ _ _ _ Hs Hrc Hq He Hv) as (c & Hc & Hc1).
  assert (0 ≤ c < 2 ^ 32)%Z as Hcr.
  { rewrite Forall_lookup in Hmc. by apply (Hmc _ _ Hc). }
  rewrite Hc. simpl. destruct (c =? 1)%Z eqn:Hone.
  - eexists _, _. split; [done|]. split; [by apply sched_ok_write|].
    split; [by apply shape_ok_write; [|apply pagetable_shape_store| |]|].
    intros F.
    pose proof (mappings_write_ptbr st _
      (store_pte (p_pagetable q) vpn (mk_pte (valid e) true (pfn e) false))
      (mapcounts st) F Hs Hpt) as Hm.
    pose proof (count_pagetable_store F _ vpn e
      (mk_pte (valid e) true (pfn e) false) He) as Hst.
    unfold maps_frame in Hst. simpl in Hst.
    pose proof (Hrc F) as HF. unfold mapcount in *. simpl. lia.
  - apply Z.eqb_neq in Hone.
    destruct (first_free (mapcounts st) =? NR_PAGEFRAMES) eqn:Hff;
      [by eexists _, _|].
    apply Nat.eqb_neq in Hff. pose proof (first_free_le (mapcounts st)).
    assert (mapcounts st !! first_free (mapcounts st) = Some 0%Z) as Hz
      by (apply first_free_zero; [done|lia]).
    assert (first_free (mapcounts st) ≠ pfn e) as Hne
      by (intros Heq; rewrite Heq in Hz; simplify_eq; lia).
    unfold mc_dec, mc_inc. rewrite Hc. simpl.
    rewrite (u32_small (c - 1)) by lia.
    assert (<[pfn e := (c - 1)%Z]> (mapcounts st)
              !! first_free (mapcounts st) = Some 0%Z) as Hz'
      by (by rewrite list_lookup_insert_ne).
    rewrite Hz'. simpl. rewrite (u32_small (0 + 1)) by lia.
    eexists _, _. split; [done|]. split; [by apply sched_ok_write|].
    split.
    { apply shape_ok_write; [done|by apply pagetable_shape_store| |].
      - by rewrite !length_insert.
      - apply Forall_insert; [|lia]. apply Forall_insert; [done|lia]. }
    intros F.
    pose proof (mappings_write_ptbr st _
      (store_pte (p_pagetable q) vpn
         (mk_pte (valid e) true (first_free (mapcounts st)) false))
      (<[first_free (mapcounts st) := (0 + 1)%Z]>
         (<[pfn e := (c - 1)%Z]> (mapcounts st))) F Hs Hpt) as Hm.
    pose proof (count_pagetable_store F _ vpn e
      (mk_pte (valid e) true (first_free (mapcounts st)) false) He) as Hst.
    rewrite !maps_frame_cases in Hst. simpl in Hst.
    pose proof (Hrc F) as HF. unfold mapcount in *. simpl.
    rewrite (mapcount_insert _ _ _ _ F Hz').
    rewrite (mapcount_insert _ _ _ _ F Hc).
    destruct (decide (F = first_free (mapcounts st))) as [->|HF1].
    + rewrite (decide_True (P := valid e = true ∧ first_free _ = _)) in Hst
        by done.
      rewrite decide_False in Hst by (intros [_ ?]; congruence).
      rewrite Hz in HF. simpl in HF. lia.
    + rewrite (decide_False (P := valid e = true ∧ first_free _ = _)) in Hst
        by (intros [_ ?]; congruence).
      destruct (decide (F = pfn e)) as [->|HF2].
      * rewrite decide_True in Hst by done. rewrite Hc in HF. simpl in HF. lia.
      * rewrite decide_False in Hst by (intros [_ ?]; congruence). lia.
Qed.

(** *** The fork loops *)

Lemma maps_frame_cow_protect F e : maps_frame F (cow_protect e) = maps_frame F e.
Proof.
  unfold cow_protect, maps_frame.
  destruct (valid e) eqn:Hv, (writable e); simpl; by rewrite ?Hv.
Qed.

Lemma maps_frame_child_pte F u e :
  valid u = false → maps_frame F (child_pte u e) = maps_frame F e.
Proof.
  intros Hu. unfold child_pte, maps_frame.
  destruct (valid e); [done|]. by rewrite Hu.
Qed.

Lemma sum_list_with_imap {A B} (f : B → nat) (f' : A → nat)
    (g : nat → A → B) (l : list A) :
  (∀ i x, f (g i x) = f' x) →
  sum_list_with f (imap g l) = sum_list_with f' l.
Proof.
  revert g. induction l as [|a l IH]; intros g Hg; simpl; [done|].
  rewrite Hg. f_equal. apply IH. intros i x. apply Hg.
Qed.

Lemma sum_list_with_fmap {A B} (f : B → nat) (g : A → B) (l : list A) :
  sum_list_with f (g <$> l) = sum_list_with (f ∘ g) l.
Proof. induction l as [|a l IH]; csimpl; [done|]. by rewrite IH. Qed.

Lemma count_protect_pagetable F pt :
  count_pagetable F (protect_pagetable pt) = count_pagetable F pt.
Proof.
  unfold count_pagetable, protect_pagetable. rewrite sum_list_with_fmap.
  apply sum_list_with_agree. intros [pd|] _; simpl; [|done].
  unfold count_directory. rewrite sum_list_with_fmap.
  apply sum_list_with_agree. intros e _. apply maps_frame_cow_protect.
Qed.

Lemma count_child_pagetable m F pt :
  fresh_clear m →
  count_pagetable F (child_pagetable m pt) = count_pagetable F pt.
Proof.
  intros [Hslot Hpte]. unfold count_pagetable, child_pagetable.
  apply sum_list_with_imap. intros i [pd|]; simpl; [|by rewrite Hslot].
  unfold count_directory. apply sum_list_with_imap. intros j e.
  by apply maps_frame_child_pte.
Qed.

Lemma counters_grow_refl (n : nat → nat) mc :
  (∀ F, n F = 0) → counters_grow n mc mc.
Proof.
  intros Hn. split; [done|]. intros Hr. split; [done|].
  intros F _. rewrite Hn. lia.
Qed.

Lemma counters_grow_trans (n1 n2 n : nat → nat) mc mc1 mc2 :
  (∀ F, n F = n1 F + n2 F) →
  counters_grow n1 mc mc1 → counters_grow n2 mc1 mc2 →
  counters_grow n mc mc2.
Proof.
  intros Hn [Hl1 H1] [Hl2 H2]. split; [congruence|]. intros Hr.
  destruct (H1 Hr) as [Hr1 Hg1]. destruct (H2 Hr1) as [Hr2 Hg2].
  split; [done|]. intros F HF. rewrite Hn in HF |- *.
  assert (0 ≤ default 0 (mc !! F))%Z as Hpos.
  { destruct (mc !! F) as [c|] eqn:Hc; simpl; [|lia].
    rewrite Forall_lookup in Hr. apply (Hr _ _ Hc). }
  rewrite Hg2; rewrite Hg1; lia.
Qed.

Lemma fork_pte_spec u e mc :
  (∀ F, length mc ≤ F → maps_frame F e = 0) →
  ∃ mc', fork_pte u e mc = Some (cow_protect e, child_pte u e, mc') ∧
         counters_grow (λ F, maps_frame F e) mc mc'.
Proof.
  intros Hin. unfold fork_pte, cow_protect, child_pte.
  destruct (valid e) eqn:Hv; simpl.
  - destruct (lookup_lt_is_Some_2 mc (pfn e)) as [c Hc].
    { destruct (decide (pfn e < length mc)) as [|Hge]; [done|].
      specialize (Hin (pfn e)). rewrite maps_frame_cases in Hin.
      rewrite decide_True in Hin by done. lia. }
    unfold mc_inc. rewrite Hc. simpl.
    exists (<[pfn e := u32 (c + 1)]> mc). split.
    { destruct e as [v w f pr]. simpl in *. subst v. by destruct w. }
    split; [by rewrite length_insert|]. intros Hr. split.
    { apply Forall_insert; [done|]. apply u32_range. }
    intros F. rewrite (mapcount_insert _ _ _ _ F Hc).
    rewrite maps_frame_cases.
    destruct (decide (F = pfn e)) as [->|Hne].
    + rewrite decide_True by done. rewrite Hc. simpl. intros Hlt.
      rewrite Forall_lookup in Hr. pose proof (Hr _ _ Hc).
      apply u32_small. lia.
    + rewrite decide_False by (intros [_ ?]; congruence). lia.
  - eexists. split; [done|]. apply counters_grow_refl.
    intros F. unfold maps_frame. by rewrite Hv.
Qed.

Lemma fork_directory_from fresh j pd mc :
  (∀ F, length mc ≤ F → count_directory F pd = 0) →
  ∃ mc', fork_directory fresh j pd mc =
           Some (cow_protect <$> pd,
                 imap (λ k, child_pte (fresh (j + k))) pd, mc') ∧
         counters_grow (λ F, count_directory F pd) mc mc'.
Proof.
  revert j mc. induction pd as [|e pd IH]; intros j mc Hin; simpl.
  { eexists. split; [done|]. by apply counters_grow_refl. }
  destruct (fork_pte_spec (fresh j) e mc) as (mc1 & -> & Hg1).
  { intros F HF. specialize (Hin F HF). simpl in Hin. lia. }
  simpl. destruct (IH (S j) mc1) as (mc2 & -> & Hg2).
  { intros F HF. destruct Hg1 as [Hl _]. rewrite Hl in HF.
    specialize (Hin F HF). simpl in Hin. lia. }
  simpl. exists mc2. split.
  { rewrite Nat.add_0_r.
    rewrite (imap_ext (_ ∘ S) (λ k, child_pte (fresh (S (j + k))))); [done|].
    intros k x _. simpl. by rewrite Nat.add_succ_r. }
  by eapply counters_grow_trans; [|exact Hg1|exact Hg2].
Qed.

Lemma fork_pagetable_from m i pt mc :
  (∀ F, length mc ≤ F → count_pagetable F pt = 0) →
  ∃ mc', fork_pagetable m i pt mc =
           Some (protect_pagetable pt,
                 imap (λ k, child_slot m (i + k)) pt, mc') ∧
         counters_grow (λ F, count_pagetable F pt) mc mc'.
Proof.
  revert i mc. induction pt as [|[pd|] pt IH]; intros i mc Hin; simpl.
  - eexists. split; [done|]. by apply counters_grow_refl.
  - destruct (fork_directory_from (fresh_pte m i) 0 pd mc) as (mc1 & -> & Hg1).
    { intros F HF. specialize (Hin F HF). simpl in Hin. lia. }
    simpl. destruct (IH (S i) mc1) as (mc2 & -> & Hg2).
    { intros F HF. destruct Hg1 as [Hl _]. rewrite Hl in HF.
      specialize (Hin F HF). simpl in Hin. lia. }
    simpl. exists mc2. split.
    { rewrite Nat.add_0_r.
      rewrite (imap_ext (_ ∘ S) (λ k, child_slot m (S (i + k)))); [done|].
      intros k x _. simpl. by rewrite Nat.add_succ_r. }
    by eapply counters_grow_trans; [|exact Hg1|exact Hg2].
  - destruct (IH (S i) mc) as (mc2 & -> & Hg2).
    { intros F HF. specialize (Hin F HF). simpl in Hin. lia. }
    simpl. exists mc2. split; [|done].
    rewrite Nat.add_0_r.
    rewrite (imap_ext (_ ∘ S) (λ k, child_slot m (S (i + k)))); [done|].
    intros k x _. simpl. by rewrite Nat.add_succ_r.
Qed.

Lemma fork_pagetable_spec m pt mc :
  (∀ F, length mc ≤ F → count_pagetable F pt = 0) →
  ∃ mc', fork_pagetable m 0 pt mc =
           Some (protect_pagetable pt, child_pagetable m pt, mc') ∧
         counters_grow (λ F, count_pagetable F pt) mc mc'.
Proof. apply fork_pagetable_from. Qed.

(** *** The search of the ready list *)

Lemma find_process_found hp p l temp :
  find_process hp p l = Some (Some temp) →
  temp ∈ l ∧ ∃ q, hp !! temp = Some q ∧ pid q = p.
Proof.
  induction l as [|t l IH]; simpl; [done|].
  destruct (hp !! t) as [q|] eqn:Hq; simpl; [|done].
  destruct (pid q =? p) eqn:Hp.
  - intros ?; simplify_eq. apply Nat.eqb_eq in Hp.
    split; [by left|eauto].
  - intros H. destruct (IH H) as [Hin Hq']. split; [by right|done].
Qed.

Lemma find_process_not_found hp p l :
  find_process hp p l = Some None →
  ∀ h q, h ∈ l → hp !! h = Some q → pid q ≠ p.
Proof.
  induction l as [|t l IH]; simpl; intros H h q Hin Hq.
  { by apply elem_of_nil in Hin. }
  destruct (hp !! t) as [q'|] eqn:Hq'; simpl in H; [|done].
  destruct (pid q' =? p) eqn:Hp; [done|]. apply Nat.eqb_neq in Hp.
  apply elem_of_cons in Hin as [->|Hin]; [congruence|by eapply IH].
Qed.

Lemma find_process_none hp p l :
  (∀ h, h ∈ l → ∃ q, hp !! h = Some q ∧ pid q ≠ p) →
  find_process hp p l = Some None.
Proof.
  induction l as [|t l IH]; simpl; intros H; [done|].
  destruct (H t) as (q & -> & Hne); [by left|]. simpl.
  rewrite (proj2 (Nat.eqb_neq _ _) Hne). apply IH.
  intros h Hh. apply H. by right.
Qed.

Lemma find_process_total hp p l :
  (∀ h, h ∈ l → is_Some (hp !! h)) → is_Some (find_process hp p l).
Proof.
  induction l as [|t l IH]; simpl; intros H; [done|].
  destruct (H t) as [q ->]; [by left|]. simpl.
  destruct (pid q =? p); [done|]. apply IH. intros h Hh. apply H. by right.
Qed.

Lemma list_del_perm temp (l : list nat) :
  NoDup l → temp ∈ l → temp :: list_del temp l ≡ₚ l.
Proof.
  intros Hnd Hin. unfold list_del. apply NoDup_Permutation; [|done|].
  - apply NoDup_cons. split; [|by apply NoDup_filter].
    rewrite list_elem_of_filter. tauto.
  - intros x. rewrite elem_of_cons, list_elem_of_filter.
    destruct (decide (x = temp)) as [->|Hne]; tauto.
Qed.

(** *** switch_process keeps a consistent machine consistent *)

Lemma refcount_in_range st q F :
  refcount_ok st → heap st !! current st = Some q →
  length (mapcounts st) ≤ F → count_pagetable F (p_pagetable q) = 0.
Proof.
  intros Hrc Hq HF. specialize (Hrc F). unfold mapcount in Hrc.
  rewrite (proj2 (lookup_ge_None _ _) HF) in Hrc. simpl in Hrc.
  rewrite mappings_unfold, (count_process_lookup _ _ _ _ Hq) in Hrc. lia.
Qed.

Lemma pagetable_shape_map f pt :
  pagetable_shape pt → pagetable_shape (map_slot f <$> pt).
Proof.
  intros [Hlen Hall]. split; [by rewrite length_fmap|].
  apply Forall_fmap. eapply Forall_impl; [exact Hall|].
  intros [pd|] Hs pd' Heq; simplify_eq/=.
  rewrite length_fmap. by apply Hs.
Qed.

Lemma pagetable_shape_child m pt :
  fresh_clear m → pagetable_shape pt → pagetable_shape (child_pagetable m pt).
Proof.
  intros [Hslot _] [Hlen Hall]. unfold child_pagetable.
  split; [by rewrite length_imap|].
  apply Forall_lookup. intros i slot. rewrite list_lookup_imap.
  destruct (pt !! i) as [[pd|]|] eqn:Hi; intros Hs pd' ->; simplify_eq/=.
  - rewrite length_imap. by eapply (Forall_lookup_1 _ _ _ _ Hall Hi).
  - by rewrite Hslot in Hs.
Qed.

Lemma switch_process_inv m p st :
  machine_inv st →
  (pid_ready st p ∨
   fresh_clear m ∧
   ∀ q, heap st !! current st = Some q → fork_fits st (p_pagetable q)) →
  ∃ st', switch_process m p st = Some st' ∧ machine_inv st'.
Proof.
  intros (Hs & Hsh & Hrc) Hpre.
  pose proof Hs as (Hptbr & Hnd & Hall).
  pose proof Hsh as (Hpos & Hlen & Hmc & Hshapes).
  destruct (sched_ok_current st Hs) as [q Hq].
  unfold switch_process.
  destruct (find_process_total (heap st) p (processes st)) as [found Hfound].
  { intros h Hh. apply lookup_lt_is_Some, Hall. by right. }
  rewrite Hfound. simpl. destruct found as [temp|].
  - destruct (find_process_found _ _ _ _ Hfound) as (Hin & qt & Hqt & Hpid).
    eexists. split; [done|]. unfold list_add.
    assert (temp :: list_del temp (current st :: processes st)
              ≡ₚ current st :: processes st) as Hperm.
    { apply list_del_perm; [done|by right]. }
    split; [|split; [done|]].
    + split; [done|]. split.
      * change (NoDup (temp :: list_del temp (current st :: processes st))).
        by rewrite Hperm.
      * intros h.
        change (h ∈ temp :: list_del temp (current st :: processes st)
                ↔ h < length (heap st)).
        rewrite Hperm. apply Hall.
    + intros F.
      change (mapcount st F =
              Z.of_nat (sum_list_with (count_process (heap st) F)
                (temp :: list_del temp (current st :: processes st)))).
      rewrite Hperm. apply Hrc.
  - assert (∀ F, mapcount st F +
              Z.of_nat (count_pagetable F (p_pagetable q)) < 2 ^ 32)%Z
      as Hfits.
    { destruct Hpre as [(h & qh & Hh & Hqh & Hpid)|[_ Hfits]];
        [|by apply Hfits].
      by destruct (find_process_not_found _ _ _ Hfound h qh). }
    assert (fresh_clear m) as Hclear.
    { destruct Hpre as [(h & qh & Hh & Hqh & Hpid)|[Hclear _]]; [|done].
      by destruct (find_process_not_found _ _ _ Hfound h qh). }
    rewrite (read_ptbr_current _ _ Hptbr Hq). simpl.
    destruct (fork_pagetable_spec m (p_pagetable q) (mapcounts st))
      as (mc' & -> & Hlen' & Hgrow).
    { intros F HF. by eapply refcount_in_range. }
    destruct (Hgrow Hmc) as [Hmc' Hcount]. simpl.
    eexists. split; [done|].
    assert (∀ h, h ∈ all_processes st → h < length (heap st)) as Hlt
      by (intros h; apply Hall).
    split; [|split].
    + split; [done|]. unfold all_processes, list_add. simpl. split.
      * apply NoDup_cons. split; [|done].
        intros Hin. apply Hlt in Hin. lia.
      * intros h. rewrite elem_of_cons, length_app, length_set_pagetable.
        simpl. unfold all_processes in Hall. rewrite (Hall h). lia.
    + split; [done|]. split; [simpl; by rewrite Hlen'|]. split; [done|]. simpl.
      pose proof (Forall_lookup_1 _ _ _ _ Hshapes Hq) as Hshq.
      apply Forall_app. split.
      * unfold set_pagetable. destruct (heap st !! ptbr st); [|done].
        apply Forall_insert; [done|]. by apply pagetable_shape_map.
      * apply Forall_singleton. by apply pagetable_shape_child.
    + intros F. unfold mapcount, mappings, all_processes, list_add. simpl.
      rewrite Hcount by apply Hfits.
      pose proof (Hrc F) as HF. rewrite mappings_unfold in HF.
      rewrite (count_process_lookup _ _ _ _ Hq) in HF.
      unfold mapcount in HF. rewrite HF.
      assert (length (set_pagetable (ptbr st)
                (protect_pagetable (p_pagetable q)) (heap st))
              = length (heap st)) as Hl by apply length_set_pagetable.
      erewrite (count_process_lookup _ F (length (heap st)));
        [|by rewrite lookup_app_r, Hl, Nat.sub_diag by lia].
      erewrite (count_process_lookup _ F (current st)); cycle 1.
      { rewrite lookup_app_l by (rewrite Hl; apply Hlt; by left).
        rewrite Hptbr. by apply lookup_set_pagetable_eq. }
      simpl. rewrite count_child_pagetable, count_protect_pagetable by done.
      match goal with
      | |- context [sum_list_with (count_process (?hp ++ ?c) F)] =>
          rewrite (sum_list_with_agree (count_process (hp ++ c) F)
                     (count_process (heap st) F)); [lia|]
      end.
      intros h Hh. unfold count_process.
      rewrite lookup_app_l by (rewrite Hl; apply Hlt; by right).
      rewrite lookup_set_pagetable_ne; [done|].
      rewrite Hptbr. intros Heq. by apply (sched_ok_ready_ne st h Hs Hh).
Qed.

Lemma not_pid_ready_find p st :
  (∀ h, h ∈ processes st → is_Some (heap st !! h)) →
  ¬ pid_ready st p → find_process (heap st) p (processes st) = Some None.
Proof.
  intros Hall Hnot. apply find_process_none. intros h Hh.
  destruct (Hall h Hh) as [q Hq]. exists q. split; [done|].
  intros Hpid. apply Hnot. by exists h, q.
Qed.

(** The fork branch, in full. *)
Lemma switch_process_fork m p st q :
  sched_ok st → refcount_ok st →
  heap st !! current st = Some q → ¬ pid_ready st p →
  ∃ mc',
    switch_process m p st =
      Some (mk_machine
              (set_pagetable (current st)
                 (protect_pagetable (p_pagetable q)) (heap st)
               ++ [mk_process p (child_pagetable m (p_pagetable q))])
              (current st :: processes st)
              (length (heap st)) (length (heap st)) mc') ∧
    counters_grow (λ F, count_pagetable F (p_pagetable q)) (mapcounts st) mc'.
Proof.
  intros Hs Hrc Hq Hnot. pose proof Hs as (Hptbr & _ & Hall).
  unfold switch_process. rewrite not_pid_ready_find; [| |done]; cycle 1.
  { intros h Hh. apply lookup_lt_is_Some, Hall. by right. }
  simpl. rewrite (read_ptbr_current _ _ Hptbr Hq). simpl.
  destruct (fork_pagetable_spec m (p_pagetable q) (mapcounts st))
    as (mc' & -> & Hgrow).
  { intros F HF. by eapply refcount_in_range. }
  simpl. exists mc'. by rewrite Hptbr.
Qed.

Lemma lookup_pte_map_slot f pt vpn :
  lookup_pte (map_slot f <$> pt) vpn = f <$> lookup_pte pt vpn.
Proof.
  unfold lookup_pte. rewrite list_lookup_fmap.
  destruct (pt !! pd_index_of vpn) as [[pd|]|]; simpl; [|done|done].
  apply list_lookup_fmap.
Qed.

(** *** The ready list across a switch *)


Lemma switch_process_sched_ok m p st st' :
  sched_ok st → switch_process m p st = Some st' →
  sched_ok st' ∧ current st ∈ processes st'.
Proof.
  intros Hs Hsw. pose proof Hs as (Hptbr & Hnd & Hall).
  unfold switch_process in Hsw.
  destruct (find_process (heap st) p (processes st)) as [[temp|]|] eqn:Hf;
    simplify_eq/=.
  - destruct (find_process_found _ _ _ _ Hf) as (Hin & _).
    assert (temp :: list_del temp (current st :: processes st)
              ≡ₚ current st :: processes st) as Hperm.
    { apply list_del_perm; [done|by right]. }
    split; [split; [done|split]|].
    + change (NoDup (temp :: list_del temp (current st :: processes st))).
      by rewrite Hperm.
    + intros h.
      change (h ∈ temp :: list_del temp (current st :: processes st)
              ↔ h < length (heap st)).
      rewrite Hperm. apply Hall.
    + simpl. unfold list_del, list_add. apply list_elem_of_filter.
      split; [|by left]. intros Heq.
      by apply (sched_ok_ready_ne st temp Hs Hin).
  - destruct (read_ptbr st) as [pt|]; simplify_eq/=.
    destruct (fork_pagetable m 0 pt (mapcounts st)) as [[[pt' ct] mc]|];
      simplify_eq/=.
    split; [|by left]. split; [done|]. unfold all_processes. simpl. split.
    + apply NoDup_cons. split; [|done].
      intros Hin. apply Hall in Hin. lia.
    + intros h. rewrite elem_of_cons, length_app, length_set_pagetable.
      simpl. unfold all_processes in Hall. rewrite (Hall h). lia.
Qed.


(** The existing-target branch, in full. *)
Lemma switch_process_existing m p st :
  sched_ok st → pid_ready st p →
  ∃ t qt,
    switch_process m p st =
      Some (mk_machine (heap st)
              (list_del t (current st :: processes st)) t t (mapcounts st)) ∧
    t ∈ processes st ∧ heap st !! t = Some qt ∧ pid qt = p.
Proof.
  intros Hs (h & qh & Hh & Hqh & Hpid). pose proof Hs as (_ & _ & Hall).
  destruct (find_process_total (heap st) p (processes st)) as [found Hfound].
  { intros h' Hh'. apply lookup_lt_is_Some, Hall. by right. }
  destruct found as [t|].
  - destruct (find_process_found _ _ _ _ Hfound) as (Hin & qt & Hqt & Hp).
    exists t, qt. unfold switch_process. rewrite Hfound. done.
  - by destruct (find_process_not_found _ _ _ Hfound h qh).
Qed.

(** *** The child's page table *)

Lemma lookup_pte_child m pt vpn e :
  lookup_pte pt vpn = Some e →
  lookup_pte (child_pagetable m pt) vpn =
    Some (child_pte (fresh_pte m (pd_index_of vpn) (pte_index_of vpn)) e).
Proof.
  unfold lookup_pte, child_pagetable. intros H. rewrite list_lookup_imap.
  destruct (pt !! pd_index_of vpn) as [[pd|]|]; simplify_eq/=.
  rewrite list_lookup_imap, H. done.
Qed.

Lemma lookup_pte_child_inv m pt vpn c :
  fresh_clear m →
  lookup_pte (child_pagetable m pt) vpn = Some c →
  ∃ e, lookup_pte pt vpn = Some e ∧
       c = child_pte (fresh_pte m (pd_index_of vpn) (pte_index_of vpn)) e.
Proof.
  intros [Hslot _]. unfold lookup_pte, child_pagetable.
  rewrite list_lookup_imap.
  destruct (pt !! pd_index_of vpn) as [[pd|]|]; simpl; [| |done].
  - rewrite list_lookup_imap.
    destruct (pd !! pte_index_of vpn) as [e|]; simpl; [|done].
    intros ?; simplify_eq. eauto.
  - by rewrite Hslot.
Qed.

Lemma mapped_frame_child m pt vpn :
  fresh_clear m →
  mapped_frame (child_pagetable m pt) vpn = mapped_frame pt vpn.
Proof.
  intros Hclear. unfold mapped_frame.
  destruct (lookup_pte pt vpn) as [e|] eqn:He.
  - rewrite (lookup_pte_child m _ _ _ He). simpl. unfold child_pte.
    destruct (valid e); [done|]. by rewrite (proj2 Hclear).
  - destruct (lookup_pte (child_pagetable m pt) vpn) as [c|] eqn:Hc; [|done].
    destruct (lookup_pte_child_inv _ _ _ _ Hclear Hc) as (e & He' & _).
    congruence.
Qed.

End Facts.

(** ** The properties of the specification *)

Section Properties.
Context `{cfg : vm_config}.

(** C2. A write fault of the current process on a valid, non-writable,
    private entry whose frame has a counter of at least 2: when [F] is the
    free frame of least index, the fault succeeds, the old frame's counter
    drops by one, the counter of [F] becomes 1, the entry maps [F], is
    writable and no longer private, and every other process is left as it
    was; when no frame is free the fault fails and the state is
    unchanged. *)
Theorem cow_shared_duplication
    (vpn : nat) (rw : Z) (st : machine) (q : process) (e : pte) (c : Z) :
  rw ≠ RW_READ →
  ptbr st = current st →
  heap st !! current st = Some q →
  lookup_pte (p_pagetable q) vpn = Some e →
  valid e = true → writable e = false → private e = true →
  mapcounts st !! pfn e = Some c → (2 ≤ c < 2 ^ 32)%Z →
  length (mapcounts st) = NR_PAGEFRAMES →
  (∀ F, mapcounts st !! F = Some 0%Z →
        (∀ i, i < F → mapcounts st !! i ≠ Some 0%Z) →
   ∃ st' q',
     handle_page_fault vpn rw st = Some (true, st') ∧
     current st' = current st ∧
     heap st' !! current st = Some q' ∧
     lookup_pte (p_pagetable q') vpn = Some (mk_pte true true F false) ∧
     mapcounts st' !! pfn e = Some (c - 1)%Z ∧
     mapcounts st' !! F = Some 1%Z ∧
     (∀ G, G ≠ F → G ≠ pfn e → mapcounts st' !! G = mapcounts st !! G) ∧
     (∀ h, h ≠ current st → heap st' !! h = heap st !! h)) ∧
  ((∀ F, F < NR_PAGEFRAMES → mapcounts st !! F ≠ Some 0%Z) →
   handle_page_fault vpn rw st = Some (false, st)).
Proof.
  intros Hrw Hptbr Hq He Hv Hw Hp Hc Hrange Hlen.
  pose proof (read_ptbr_current _ _ Hptbr Hq) as Hpt.
  unfold handle_page_fault.
  rewrite (proj2 (Z.eqb_neq _ _) Hrw), Hpt. simpl. rewrite He. simpl.
  rewrite Hw, Hp, Hc. simpl.
  rewrite (proj2 (Z.eqb_neq c 1)) by lia. split.
  - intros F HF Hleast. rewrite (first_free_least _ _ Hlen HF Hleast).
    assert (F < NR_PAGEFRAMES) as HFlt by (apply lookup_lt_Some in HF; lia).
    assert (F ≠ pfn e) as Hne by (intros ->; simplify_eq; lia).
    rewrite (proj2 (Nat.eqb_neq _ _)) by lia.
    unfold mc_dec, mc_inc. rewrite Hc. simpl.
    rewrite list_lookup_insert_ne, HF by done. simpl.
    rewrite (u32_small (c - 1)), (u32_small (0 + 1)) by lia.
    eexists _, _. split; [by rewrite Hv|]. split; [done|].
    split. { simpl. rewrite Hptbr. by apply lookup_set_pagetable_eq. }
    split. { simpl. by eapply lookup_store_eq. }
    split.
    { simpl. rewrite list_lookup_insert_ne by done.
      apply list_lookup_insert_eq. by eapply lookup_lt_Some. }
    split.
    { simpl. apply list_lookup_insert_eq. rewrite length_insert. lia. }
    split.
    { intros G HG1 HG2. simpl. by rewrite !list_lookup_insert_ne. }
    intros h Hh. simpl. rewrite Hptbr. by apply lookup_set_pagetable_ne.
  - intros Hnone. by rewrite (first_free_none _ Hlen Hnone), Nat.eqb_refl.
Qed.

(** C3. A write fault of the current process on a valid, non-writable,
    private entry whose frame has a counter of exactly 1 succeeds; the
    entry becomes writable and not private and keeps its frame, and no
    counter changes. *)
Theorem cow_sole_owner_promotion
    (vpn : nat) (rw : Z) (st : machine) (q : process) (e : pte) :
  rw ≠ RW_READ →
  ptbr st = current st →
  heap st !! current st = Some q →
  lookup_pte (p_pagetable q) vpn = Some e →
  valid e = true → writable e = false → private e = true →
  mapcounts st !! pfn e = Some 1%Z →
  ∃ st' q',
    handle_page_fault vpn rw st = Some (true, st') ∧
    current st' = current st ∧
    heap st' !! current st = Some q' ∧
    lookup_pte (p_pagetable q') vpn = Some (mk_pte true true (pfn e) false) ∧
    mapcounts st' = mapcounts st ∧
    (∀ h, h ≠ current st → heap st' !! h = heap st !! h).
Proof.
  intros Hrw Hptbr Hq He Hv Hw Hp Hc.
  pose proof (read_ptbr_current _ _ Hptbr Hq) as Hpt.
  unfold handle_page_fault.
  rewrite (proj2 (Z.eqb_neq _ _) Hrw), Hpt. simpl. rewrite He. simpl.
  rewrite Hw, Hp, Hc, Hv. simpl.
  eexists _, _. split; [done|]. split; [done|].
  split. { simpl. rewrite Hptbr. by apply lookup_set_pagetable_eq. }
  split. { simpl. by eapply lookup_store_eq. }
  split; [done|].
  intros h Hh. simpl. rewrite Hptbr. by apply lookup_set_pagetable_ne.
Qed.

(** What [free_page] does to the entry of [vpn], whatever the entry: the
    counter of the frame it names is decremented, [valid], [writable] and
    [pfn] are reset, [private] keeps its value, and the other processes are
    left as they were. *)
Lemma free_page_post (vpn : nat) (st : machine) (q : process) (e : pte) (c : Z) :
  ptbr st = current st →
  heap st !! current st = Some q →
  lookup_pte (p_pagetable q) vpn = Some e →
  mapcounts st !! pfn e = Some c →
  ∃ st' q',
    free_page vpn st = Some st' ∧
    heap st' !! current st = Some q' ∧
    lookup_pte (p_pagetable q') vpn = Some (mk_pte false false 0 (private e)) ∧
    mapcounts st' = <[pfn e := u32 (c - 1)]> (mapcounts st) ∧
    (∀ h, h ≠ current st → heap st' !! h = heap st !! h).
Proof.
  intros Hptbr Hq He Hc.
  unfold free_page. rewrite (read_ptbr_current _ _ Hptbr Hq). simpl.
  rewrite He. simpl. unfold mc_dec. rewrite Hc. simpl.
  eexists _, _. split; [done|].
  split. { simpl. rewrite Hptbr. by apply lookup_set_pagetable_eq. }
  split. { simpl. by eapply lookup_store_eq. }
  split; [done|].
  intros h Hh. simpl. rewrite Hptbr. by apply lookup_set_pagetable_ne.
Qed.

(** The faults [handle_page_fault] refuses without touching the state: a
    read access, and a write access to an entry that exists and is
    writable or not private. *)
Lemma handle_page_fault_refuses (vpn : nat) (rw : Z) (st : machine) :
  (rw = RW_READ → handle_page_fault vpn rw st = Some (false, st)) ∧
  (∀ pt e,
     read_ptbr st = Some pt → lookup_pte pt vpn = Some e →
     writable e = true ∨ private e = false →
     handle_page_fault vpn rw st = Some (false, st)).
Proof.
  unfold handle_page_fault. split.
  - intros ->. by rewrite Z.eqb_refl.
  - intros pt e Hpt He Hcase. destruct (rw =? RW_READ)%Z; [done|].
    rewrite Hpt. simpl. rewrite He. simpl.
    by destruct Hcase as [-> | ->]; [|destruct (writable e)].
Qed.

(** A write fault on a page whose directory is not allocated reads through
    the NULL pointer. *)
Lemma handle_page_fault_null_directory
    (vpn : nat) (rw : Z) (st : machine) (pt : pagetable) :
  rw ≠ RW_READ →
  read_ptbr st = Some pt →
  pt !! pd_index_of vpn = Some None →
  handle_page_fault vpn rw st = None.
Proof.
  intros Hrw Hpt Hslot. unfold handle_page_fault.
  rewrite (proj2 (Z.eqb_neq _ _) Hrw), Hpt. simpl.
  unfold lookup_pte. by rewrite Hslot.
Qed.

(** C1, as amended. In a consistent machine ([machine_inv], whose last
    component [refcount_ok] says that for every frame [F] the counter
    [mapcounts[F]] is the number of valid entries of all processes that
    map [F]) each of the four operations returns, and leaves the machine
    consistent, provided that: [alloc_page] is called on a page of the
    address space that the current process has not mapped, and the memory
    [malloc] returns holds no pointer and no valid entry ([fresh_clear]);
    [free_page] on a page it has mapped; [handle_page_fault] for a read
    access or on a page it has mapped; [switch_process], when it forks,
    with no counter about to exceed [2^32 - 1] and with memory from
    [malloc] that holds no pointer and no valid entry. *)
Theorem refcount_conservation (st : machine) :
  machine_inv st →
  (∀ m vpn rw,
     fresh_clear m →
     vpn < NR_PTES_PER_PAGE * NR_PTES_PER_PAGE → ¬ page_mapped st vpn →
     ∃ r st', alloc_page m vpn rw st = Some (r, st') ∧
              machine_inv st' ∧ refcount_ok st') ∧
  (∀ vpn,
     page_mapped st vpn →
     ∃ st', free_page vpn st = Some st' ∧
            machine_inv st' ∧ refcount_ok st') ∧
  (∀ vpn rw,
     rw = RW_READ ∨ page_mapped st vpn →
     ∃ b st', handle_page_fault vpn rw st = Some (b, st') ∧
              machine_inv st' ∧ refcount_ok st') ∧
  (∀ m p,
     pid_ready st p ∨
     fresh_clear m ∧
     (∀ q, heap st !! current st = Some q → fork_fits st (p_pagetable q)) →
     ∃ st', switch_process m p st = Some st' ∧
            machine_inv st' ∧ refcount_ok st').
Proof.
  intros Hinv. repeat split.
  - intros m vpn rw Hclear Hvpn Hfree.
    destruct (alloc_page_inv m vpn rw st Hclear Hinv Hvpn Hfree)
      as (r & st' & H & Hi).
    exists r, st'. repeat split; try done; apply Hi.
  - intros vpn Hm.
    destruct (free_page_inv vpn st Hinv Hm) as (st' & H & Hi).
    exists st'. repeat split; try done; apply Hi.
  - intros vpn rw Hpre.
    destruct (handle_page_fault_inv vpn rw st Hinv Hpre)
      as (b & st' & H & Hi).
    exists b, st'. repeat split; try done; apply Hi.
  - intros m p Hpre.
    destruct (switch_process_inv m p st Hinv Hpre) as (st' & H & Hi).
    exists st'. repeat split; try done; apply Hi.
Qed.

(** C5, as amended. In a consistent machine, [switch_process p] for a
    pid [p] that no process of the ready list has creates a process with
    pid [p] and makes it current. Every page the parent mapped before the
    call is mapped by the child to the same frame, and the parent maps
    exactly the pages it mapped before, to the same frames; an entry that
    was valid and writable in the parent is valid, not writable and private
    in both afterwards. When the memory [malloc] returns holds no pointer
    and no valid entry, the child maps no other page. When no counter
    wraps, every counter has grown by the number of valid entries of the
    parent that map its frame: by exactly 1 for a frame the parent mapped,
    when the parent maps no frame twice. *)
Theorem fork_symmetry
    (m : fresh_memory) (p : nat) (st : machine) (q : process) :
  machine_inv st →
  heap st !! current st = Some q →
  ¬ pid_ready st p →
  ∃ st' parent child,
    switch_process m p st = Some st' ∧
    heap st' !! current st = Some parent ∧
    heap st' !! current st' = Some child ∧
    current st' ≠ current st ∧
    pid child = p ∧
    (∀ vpn F, mapped_frame (p_pagetable q) vpn = Some F →
              mapped_frame (p_pagetable child) vpn = Some F) ∧
    (fresh_clear m →
     ∀ vpn, mapped_frame (p_pagetable child) vpn =
            mapped_frame (p_pagetable q) vpn) ∧
    (∀ vpn, mapped_frame (p_pagetable parent) vpn =
            mapped_frame (p_pagetable q) vpn) ∧
    (∀ vpn e,
       lookup_pte (p_pagetable q) vpn = Some e →
       valid e = true → writable e = true →
       lookup_pte (p_pagetable parent) vpn =
         Some (mk_pte true false (pfn e) true) ∧
       lookup_pte (p_pagetable child) vpn =
         Some (mk_pte true false (pfn e) true)) ∧
    (fork_fits st (p_pagetable q) →
     (∀ F, mapcount st' F =
           (mapcount st F + Z.of_nat (count_pagetable F (p_pagetable q)))%Z) ∧
     (frames_distinct (p_pagetable q) →
      ∀ vpn e,
        lookup_pte (p_pagetable q) vpn = Some e → valid e = true →
        mapcount st' (pfn e) = (mapcount st (pfn e) + 1)%Z)).
Proof.
  intros Hinv Hq Hnot.
  destruct Hinv as (Hs & Hsh & Hrc). pose proof Hs as (Hptbr & _ & Hall).
  destruct (switch_process_fork m p st q Hs Hrc Hq Hnot)
    as (mc' & Hsw & Hlen & Hgrow).
  pose proof Hsh as (_ & _ & Hmc & _).
  destruct (Hgrow Hmc) as [_ Hcount].
  assert (current st < length (heap st)) as Hcur by (apply Hall; by left).
  eexists _, _, _. split; [exact Hsw|]. simpl.
  split.
  { rewrite lookup_app_l by (by rewrite length_set_pagetable).
    by apply lookup_set_pagetable_eq. }
  split.
  { rewrite lookup_app_r by (by rewrite length_set_pagetable).
    by rewrite length_set_pagetable, Nat.sub_diag. }
  split; [lia|]. split; [done|]. simpl.
  split.
  { intros vpn F. unfold mapped_frame.
    destruct (lookup_pte (p_pagetable q) vpn) as [e|] eqn:He; simpl; [|done].
    rewrite (lookup_pte_child m _ _ _ He). simpl. unfold child_pte.
    by destruct (valid e). }
  split.
  { intros Hclear vpn. by apply mapped_frame_child. }
  split.
  { intros vpn. unfold mapped_frame, protect_pagetable.
    rewrite lookup_pte_map_slot.
    destruct (lookup_pte (p_pagetable q) vpn) as [e|]; simpl; [|done].
    unfold cow_protect. by destruct (valid e) eqn:Hv, (writable e);
      simpl; rewrite ?Hv. }
  split.
  { intros vpn e He Hv Hw. unfold protect_pagetable.
    rewrite lookup_pte_map_slot, He, (lookup_pte_child m _ _ _ He). simpl.
    unfold child_pte, cow_protect. by rewrite Hv, Hw. }
  intros Hfits.
  assert (∀ F, default 0%Z (mc' !! F) =
               (mapcount st F +
                Z.of_nat (count_pagetable F (p_pagetable q)))%Z) as Hall'.
  { intros F. apply Hcount, Hfits. }
  split; [exact Hall'|].
  intros Hdist vpn e He Hv. unfold mapcount at 1. simpl. rewrite Hall'.
  pose proof (maps_frame_le_count (pfn e) _ _ _ He) as Hge.
  rewrite maps_frame_cases, decide_True in Hge by done.
  pose proof (Hdist (pfn e)) as Hle.
  replace (count_pagetable (pfn e) (p_pagetable q)) with 1 by lia. done.
Qed.


(** C10, as amended. In a consistent machine, [switch_process p] with
    [p] the pid of the current process returns. When no process of the
    ready list has pid [p] it takes the fork branch: a new process with
    pid [p] is created and made current, and the process that was current,
    which still has pid [p], is put at the head of the ready list. When a
    process of the ready list has pid [p] it takes the existing-target
    branch: no process is created, a process [t] of the ready list with
    pid [p], other than the one that was current, becomes current and is
    taken out of the ready list, the process that was current is put in
    it, and the processes and the counters are as they were. Whichever
    branch runs, the call is not a no-op: the current process changes and
    the previous one is in the ready list afterwards. *)
Theorem switch_to_own_pid
    (m : fresh_memory) (p : nat) (st : machine) (q : process) :
  machine_inv st →
  heap st !! current st = Some q →
  pid q = p →
  (¬ pid_ready st p →
   ∃ st' child parent,
     switch_process m p st = Some st' ∧
     length (heap st') = S (length (heap st)) ∧
     current st' = length (heap st) ∧
     heap st' !! current st' = Some child ∧ pid child = p ∧
     heap st' !! current st = Some parent ∧ pid parent = p ∧
     processes st' = current st :: processes st) ∧
  (pid_ready st p →
   ∃ st' t qt,
     switch_process m p st = Some st' ∧
     heap st' = heap st ∧ mapcounts st' = mapcounts st ∧
     current st' = t ∧ ptbr st' = t ∧
     t ∈ processes st ∧ t ≠ current st ∧
     heap st !! t = Some qt ∧ pid qt = p ∧
     processes st' = list_del t (current st :: processes st) ∧
     current st ∈ processes st' ∧ t ∉ processes st') ∧
  (∀ st', switch_process m p st = Some st' →
          current st' ≠ current st ∧ current st ∈ processes st').
Proof.
  intros Hinv Hq Hpid. split; [|split].
  - intros Hnot. destruct Hinv as (Hs & _ & Hrc).
    destruct (switch_process_fork m p st q Hs Hrc Hq Hnot) as (mc' & Hsw & _).
    destruct Hs as (_ & _ & Hall).
    assert (current st < length (heap st)) as Hcur by (apply Hall; by left).
    eexists _, _, _. split; [exact Hsw|]. simpl.
    split. { rewrite length_app, length_set_pagetable. simpl. lia. }
    split; [done|]. split.
    { rewrite lookup_app_r by (by rewrite length_set_pagetable).
      by rewrite length_set_pagetable, Nat.sub_diag. }
    split; [done|]. split.
    { rewrite lookup_app_l by (by rewrite length_set_pagetable).
      by apply lookup_set_pagetable_eq. }
    done.
  - intros Hready. destruct Hinv as (Hs & _ & _).
    destruct (switch_process_existing m p st Hs Hready)
      as (t & qt & Hsw & Hin & Hqt & Hp).
    destruct (switch_process_sched_ok m p st _ Hs Hsw)
      as ((_ & Hnd & _) & Hcur).
    unfold all_processes in Hnd. apply NoDup_cons in Hnd as [Hnotin _].
    eexists. exists t, qt. split; [exact Hsw|]. simpl in *.
    do 5 (split; [done|]).
    split; [by apply (sched_ok_ready_ne st t Hs Hin)|]. done.
  - intros st' Hsw. destruct Hinv as (Hs & _ & _).
    destruct (switch_process_sched_ok m p st st' Hs Hsw)
      as ((_ & Hnd & _) & Hin).
    split; [|done]. unfold all_processes in Hnd.
    apply NoDup_cons in Hnd as [Hnotin _]. intros Heq. congruence.
Qed.

End Properties.

(** ** Further properties of the four operations *)

Section More.
Context `{cfg : vm_config}.

(** *** Helper facts *)

(** A successful [alloc_page], taken apart. *)
Lemma alloc_page_success m vpn rw st r st' :
  alloc_page m vpn rw st = Some (r, st') → r ≠ NO_FRAME →
  ∃ pt pt1 old,
    read_ptbr st = Some pt ∧
    ensure_directory m pt vpn = Some pt1 ∧
    lookup_pte pt1 vpn = Some old ∧
    first_free (mapcounts st) < NR_PAGEFRAMES ∧
    mapcounts st !! first_free (mapcounts st) = Some 0%Z ∧
    r = Z.of_nat (first_free (mapcounts st)) ∧
    st' = write_ptbr st
            (store_pte pt1 vpn
               (mk_pte true (rw =? 3)%Z (first_free (mapcounts st)) false))
            (<[first_free (mapcounts st) := 1%Z]> (mapcounts st)).
Proof.
  unfold alloc_page. intros H Hr.
  destruct (read_ptbr st) as [pt|]; simplify_eq/=.
  destruct (ensure_directory m pt vpn) as [pt1|] eqn:Hens; simplify_eq/=.
  destruct (lookup_pte pt1 vpn) as [old|] eqn:Hold; simplify_eq/=.
  destruct (first_free (mapcounts st) =? NR_PAGEFRAMES) eqn:Hff;
    [by simplify_eq|].
  apply Nat.eqb_neq in Hff. pose proof (first_free_le (mapcounts st)) as Hle.
  unfold mc_inc in H.
  destruct (mapcounts st !! first_free (mapcounts st)) as [c|] eqn:Hc;
    simplify_eq/=.
  assert (c = 0%Z) as ->.
  { unfold first_free in *.
    destruct (scan_frames_stop NR_PAGEFRAMES (mapcounts st) 0) as [H0|H0];
      [lia|lia| |]; congruence. }
  exists pt, pt1, old. split; [done|]. split; [done|]. split; [done|].
  split; [lia|]. done.
Qed.

Lemma lookup_pte_elem_of pt vpn e :
  lookup_pte pt vpn = Some e → ∃ pd, Some pd ∈ pt ∧ e ∈ pd.
Proof.
  unfold lookup_pte. intros H.
  destruct (pt !! pd_index_of vpn) as [[pd|]|] eqn:Hs; simplify_eq/=.
  exists pd. split; by eapply list_elem_of_lookup_2.
Qed.

(** Every entry of every process is counted in [mappings]. *)
Lemma entry_counted st h q vpn e F :
  h ∈ all_processes st → heap st !! h = Some q →
  lookup_pte (p_pagetable q) vpn = Some e →
  maps_frame F e ≤ mappings st F.
Proof.
  intros Hh Hq He. pose proof (maps_frame_le_count F _ _ _ He) as H1.
  pose proof (sum_list_with_in h (count_process (heap st) F) _ Hh) as H2.
  rewrite (count_process_lookup _ _ _ _ Hq) in H2. unfold mappings. lia.
Qed.

(** The scan does not stop before an index below which every counter is
    in the array and not zero. *)
Lemma scan_frames_ge fuel mc num k :
  num ≤ k ≤ num + fuel →
  (∀ i, num ≤ i < k →
        i < NR_PAGEFRAMES ∧ ∃ c, mc !! i = Some c ∧ c ≠ 0%Z) →
  k ≤ scan_frames fuel mc num.
Proof.
  revert num. induction fuel as [|fuel IH]; intros num Hk Hall; simpl; [lia|].
  destruct (decide (k = num)) as [->|Hne].
  { pose proof (scan_frames_bounds (S fuel) mc num) as Hb. simpl in Hb. lia. }
  destruct (Hall num) as (Hlt & c & Hc & Hnz); [lia|].
  rewrite (proj2 (Nat.ltb_lt _ _) Hlt), Hc.
  rewrite (proj2 (Z.eqb_neq _ _) Hnz). apply IH; [lia|].
  intros i Hi. apply Hall. lia.
Qed.

Lemma store_pte_store pt vpn a b :
  store_pte (store_pte pt vpn a) vpn b = store_pte pt vpn b.
Proof.
  unfold store_pte.
  destruct (pt !! pd_index_of vpn) as [[pd|]|] eqn:Hs; rewrite ?Hs; try done.
  rewrite list_lookup_insert_eq by (by eapply lookup_lt_Some).
  by rewrite !list_insert_insert_eq.
Qed.

Lemma store_pte_id pt vpn e :
  lookup_pte pt vpn = Some e → store_pte pt vpn e = pt.
Proof.
  unfold lookup_pte, store_pte. intros H.
  destruct (pt !! pd_index_of vpn) as [[pd|]|] eqn:Hs; simplify_eq/=.
  rewrite (list_insert_id pd) by done. by apply list_insert_id.
Qed.

Lemma set_pagetable_set h pt pt' hp :
  set_pagetable h pt' (set_pagetable h pt hp) = set_pagetable h pt' hp.
Proof.
  unfold set_pagetable. destruct (hp !! h) as [q|] eqn:Hq; rewrite ?Hq; [|done].
  rewrite list_lookup_insert_eq by (by eapply lookup_lt_Some). simpl.
  apply list_insert_insert_eq.
Qed.

Lemma set_pagetable_id h hp q :
  hp !! h = Some q → set_pagetable h (p_pagetable q) hp = hp.
Proof.
  intros Hq. unfold set_pagetable. rewrite Hq. apply list_insert_id.
  rewrite Hq. by destruct q.
Qed.

(** *** Allocation *)

(** In a page table of the declared shape, whatever the memory
    [malloc] returns holds, [alloc_page vpn rw] claims the frame of least
    index whose counter is 0. When there is one it returns the frame,
    leaves the entry of [vpn] valid, writable exactly when [rw] is 3
    (read-write), with that frame and not private, and the counter of the
    frame at 1. When no counter is 0 it returns the no-frame value, leaves
    [mapcounts] as it was and changes no existing entry of any process;
    the directory of [vpn] may have been allocated, and no page becomes
    mapped when the fresh directory holds no valid entry. *)
Theorem alloc_page_post
    (m : fresh_memory) (vpn : nat) (rw : Z) (st : machine) (pt : pagetable) :
  0 < NR_PTES_PER_PAGE →
  vpn < NR_PTES_PER_PAGE * NR_PTES_PER_PAGE →
  read_ptbr st = Some pt →
  pagetable_shape pt →
  length (mapcounts st) = NR_PAGEFRAMES →
  ((∀ F, F < NR_PAGEFRAMES → mapcounts st !! F ≠ Some 0%Z) →
   ∃ st', alloc_page m vpn rw st = Some (NO_FRAME, st') ∧
     mapcounts st' = mapcounts st ∧
     (∀ h q vpn' e,
        heap st !! h = Some q → lookup_pte (p_pagetable q) vpn' = Some e →
        ∃ q', heap st' !! h = Some q' ∧
              lookup_pte (p_pagetable q') vpn' = Some e) ∧
     ((∀ j, valid (fresh_pte m (pd_index_of vpn) j) = false) →
      ∀ h q' vpn',
        heap st' !! h = Some q' →
        ∃ q, heap st !! h = Some q ∧
             mapped_frame (p_pagetable q') vpn' =
             mapped_frame (p_pagetable q) vpn')) ∧
  (∀ F, mapcounts st !! F = Some 0%Z →
        (∀ i, i < F → mapcounts st !! i ≠ Some 0%Z) →
   ∃ st' pt' e',
     alloc_page m vpn rw st = Some (Z.of_nat F, st') ∧
     read_ptbr st' = Some pt' ∧
     lookup_pte pt' vpn = Some e' ∧
     e' = mk_pte true (rw =? 3)%Z F false ∧
     (writable e' = true ↔ rw = 3%Z) ∧
     mapcounts st' = <[F := 1%Z]> (mapcounts st) ∧
     mapcounts st' !! F = Some 1%Z).
Proof.
  intros Hpos Hvpn Hpt Hshape Hlen.
  destruct (ensure_directory_entry m pt vpn Hpos Hvpn Hshape)
    as (pt1 & old & Hens & Hold & _).
  unfold alloc_page. rewrite Hpt. simpl. rewrite Hens. simpl.
  rewrite Hold. simpl. split.
  - intros Hnone. rewrite (first_free_none _ Hlen Hnone), Nat.eqb_refl.
    eexists. split; [done|]. split; [done|].
    unfold read_ptbr in Hpt.
    destruct (heap st !! ptbr st) as [p|] eqn:Hp; simplify_eq/=.
    split.
    + intros h q vpn' e Hq He.
      destruct (decide (h = ptbr st)) as [->|Hne].
      * rewrite (lookup_set_pagetable_eq _ _ _ _ Hp). simplify_eq.
        eexists. split; [done|]. simpl. by eapply ensure_directory_keeps.
      * rewrite lookup_set_pagetable_ne by done. eauto.
    + intros Hclear h q' vpn' Hq'.
      destruct (decide (h = ptbr st)) as [->|Hne].
      * rewrite (lookup_set_pagetable_eq _ _ _ _ Hp) in Hq'. simplify_eq.
        eexists. split; [done|]. simpl. by eapply mapped_frame_ensure.
      * rewrite lookup_set_pagetable_ne in Hq' by done. eauto.
  - intros F HF Hleast. rewrite (first_free_least _ _ Hlen HF Hleast).
    assert (F < NR_PAGEFRAMES) as HFlt by (apply lookup_lt_Some in HF; lia).
    rewrite (proj2 (Nat.eqb_neq _ _)) by lia.
    unfold mc_inc. rewrite HF. simpl.
    eexists _, _, _. split; [done|].
    split; [by eapply read_write_ptbr|].
    split; [by eapply lookup_store_eq|].
    split; [done|]. split; [simpl; apply Z.eqb_eq|].
    split; [done|]. simpl. apply list_lookup_insert_eq. lia.
Qed.

(** The frame [alloc_page] returns was free in the full sense: when the
    counters agree with the page tables, no valid entry of any process, the
    current one or one of the ready list, mapped it. *)
Theorem alloc_page_fresh_frame
    (m : fresh_memory) (vpn : nat) (rw : Z) (st st' : machine) (r : Z) :
  refcount_ok st →
  alloc_page m vpn rw st = Some (r, st') →
  r ≠ NO_FRAME →
  ∃ F, r = Z.of_nat F ∧ F < NR_PAGEFRAMES ∧
       mapcount st F = 0%Z ∧ mapcount st' F = 1%Z ∧
       ∀ h q vpn' e,
         h ∈ all_processes st → heap st !! h = Some q →
         lookup_pte (p_pagetable q) vpn' = Some e →
         valid e = true → pfn e ≠ F.
Proof.
  intros Hrc Ha Hr.
  destruct (alloc_page_success _ _ _ _ _ _ Ha Hr)
    as (pt & pt1 & old & _ & _ & _ & Hlt & Hz & -> & ->).
  exists (first_free (mapcounts st)). split; [done|]. split; [done|].
  assert (mapcount st (first_free (mapcounts st)) = 0%Z) as Hm
    by (unfold mapcount; by rewrite Hz).
  split; [done|]. split.
  { unfold mapcount. simpl.
    rewrite list_lookup_insert_eq by (by eapply lookup_lt_Some). done. }
  intros h q vpn' e Hh Hq He Hv Heq.
  pose proof (entry_counted st h q vpn' e (first_free (mapcounts st)) Hh Hq He)
    as Hc.
  rewrite maps_frame_cases, decide_True in Hc by done.
  specialize (Hrc (first_free (mapcounts st))). lia.
Qed.

(** Two successful calls of [alloc_page] in a row return increasing, hence
    distinct, frame numbers. *)
Theorem alloc_page_increasing
    (m1 m2 : fresh_memory) (vpn1 vpn2 : nat) (rw1 rw2 : Z)
    (st st1 st2 : machine) (r1 r2 : Z) :
  alloc_page m1 vpn1 rw1 st = Some (r1, st1) →
  alloc_page m2 vpn2 rw2 st1 = Some (r2, st2) →
  r1 ≠ NO_FRAME → r2 ≠ NO_FRAME →
  (r1 < r2)%Z.
Proof.
  intros H1 H2 Hr1 Hr2.
  destruct (alloc_page_success _ _ _ _ _ _ H1 Hr1)
    as (pt & pt1 & old & _ & _ & _ & Hlt & Hz & -> & ->).
  destruct (alloc_page_success _ _ _ _ _ _ H2 Hr2)
    as (_ & _ & _ & _ & _ & _ & _ & _ & -> & _).
  simpl. apply inj_lt.
  set (mc := mapcounts st) in *. set (F := first_free mc) in *.
  unfold first_free at 1.
  apply (scan_frames_ge NR_PAGEFRAMES (<[F := 1%Z]> mc) 0 (S F)); [lia|].
  intros i Hi. destruct (decide (i = F)) as [->|Hne].
  - split; [done|]. exists 1%Z. split; [|done].
    apply list_lookup_insert_eq. by eapply lookup_lt_Some.
  - destruct (scan_frames_skipped NR_PAGEFRAMES mc 0 i) as (Hi' & c & Hc & Hnz).
    { fold (first_free mc). fold F. lia. }
    split; [done|]. exists c. by rewrite list_lookup_insert_ne.
Qed.

(** [alloc_page] followed by [free_page] of the same page: the counters
    are what they were and the entry has all four fields at their defaults.
    When the entry had them before (a page never used, in a directory
    already allocated) the whole machine state is what it was. *)
Theorem alloc_then_free
    (m : fresh_memory) (vpn : nat) (rw : Z) (st st1 : machine) (r : Z) :
  alloc_page m vpn rw st = Some (r, st1) →
  r ≠ NO_FRAME →
  ∃ st2 pt2,
    free_page vpn st1 = Some st2 ∧
    mapcounts st2 = mapcounts st ∧
    read_ptbr st2 = Some pt2 ∧
    lookup_pte pt2 vpn = Some zero_pte ∧
    (∀ pt, read_ptbr st = Some pt → lookup_pte pt vpn = Some zero_pte →
           st2 = st).
Proof.
  intros Ha Hr.
  destruct (alloc_page_success _ _ _ _ _ _ Ha Hr)
    as (pt & pt1 & old & Hpt & Hens & Hold & Hlt & Hz & -> & ->).
  set (F := first_free (mapcounts st)) in *.
  unfold free_page.
  rewrite (read_write_ptbr st pt _ _ Hpt). simpl.
  rewrite (lookup_store_eq _ _ _ _ Hold). simpl.
  unfold mc_dec.
  rewrite list_lookup_insert_eq by (by eapply lookup_lt_Some). simpl.
  rewrite store_pte_store, list_insert_insert_eq.
  change (u32 (1 - 1)) with 0%Z. rewrite (list_insert_id _ _ _ Hz).
  eexists _, _. split; [done|]. split; [done|].
  split. { eapply read_write_ptbr. eapply read_write_ptbr. exact Hpt. }
  split. { by eapply lookup_store_eq. }
  intros pt' Hpt' Hzero. simplify_eq.
  assert (pt1 = pt) as ->.
  { revert Hens Hzero. unfold ensure_directory, lookup_pte.
    destruct (pt !! pd_index_of vpn) as [[pd|]|]; intros; by simplify_eq/=. }
  change (mk_pte false false 0 false) with zero_pte.
  rewrite (store_pte_id _ _ _ Hzero).
  unfold write_ptbr. simpl. rewrite set_pagetable_set.
  unfold read_ptbr in Hpt.
  destruct (heap st !! ptbr st) as [q|] eqn:Hq; simplify_eq/=.
  rewrite (set_pagetable_id _ _ _ Hq). by destruct st.
Qed.

(** After a page whose frame had no other mapping is freed, the next
    [alloc_page] cannot fail: it returns a frame no higher than the one
    just released. *)
Theorem free_then_alloc
    (m : fresh_memory) (vpn vpn' : nat) (rw : Z) (st : machine)
    (q : process) (e : pte) :
  machine_inv st →
  heap st !! current st = Some q →
  lookup_pte (p_pagetable q) vpn = Some e →
  valid e = true →
  mapcount st (pfn e) = 1%Z →
  vpn' < NR_PTES_PER_PAGE * NR_PTES_PER_PAGE →
  ∃ st1 st2 F,
    free_page vpn st = Some st1 ∧
    mapcount st1 (pfn e) = 0%Z ∧
    alloc_page m vpn' rw st1 = Some (Z.of_nat F, st2) ∧
    F ≤ pfn e ∧ mapcount st2 F = 1%Z.
Proof.
  intros Hinv Hq He Hv Hone Hvpn'.
  destruct (free_page_inv vpn st Hinv) as (st1 & Hfree & Hinv1).
  { by exists q, e. }
  pose proof Hinv as ((Hptbr & _) & _ & _).
  assert (mapcounts st !! pfn e = Some 1%Z) as Hc.
  { unfold mapcount in Hone. destruct (mapcounts st !! pfn e); by simplify_eq/=. }
  assert (mapcounts st1 = <[pfn e := 0%Z]> (mapcounts st)) as Hmc1.
  { revert Hfree. unfold free_page.
    rewrite (read_ptbr_current _ _ Hptbr Hq). simpl. rewrite He. simpl.
    unfold mc_dec. rewrite Hc. simpl. by intros ?; simplify_eq. }
  assert (mapcounts st1 !! pfn e = Some 0%Z) as Hz.
  { rewrite Hmc1. apply list_lookup_insert_eq. by eapply lookup_lt_Some. }
  destruct Hinv1 as (Hs1 & Hsh1 & _).
  pose proof Hsh1 as (Hpos & Hlen & _ & _).
  destruct (sched_ok_current st1 Hs1) as [q1 Hq1].
  pose proof (read_ptbr_current _ _ (proj1 Hs1) Hq1) as Hpt1.
  pose proof (shape_ok_read _ _ Hsh1 Hpt1) as Hshape.
  destruct (ensure_directory_entry m _ vpn' Hpos Hvpn' Hshape)
    as (pt2 & old & Hens & Hold & _).
  assert (first_free (mapcounts st1) ≤ pfn e) as Hle.
  { destruct (decide (first_free (mapcounts st1) ≤ pfn e)) as [|Hgt]; [done|].
    destruct (first_free_skipped (mapcounts st1) (pfn e)) as (c & Hc' & Hnz);
      [lia|congruence]. }
  assert (pfn e < NR_PAGEFRAMES) as Hlt
    by (rewrite <- Hlen; by eapply lookup_lt_Some).
  pose proof (first_free_zero _ Hlen ltac:(lia)) as Hz'.
  exists st1. eexists _, (first_free (mapcounts st1)).
  split; [done|]. split; [unfold mapcount; by rewrite Hz|].
  unfold alloc_page. rewrite Hpt1. simpl. rewrite Hens. simpl.
  rewrite Hold. simpl. rewrite (proj2 (Nat.eqb_neq _ _)) by lia.
  unfold mc_inc. rewrite Hz'. simpl.
  split; [done|]. split; [done|].
  unfold mapcount. simpl.
  rewrite list_lookup_insert_eq by (by eapply lookup_lt_Some). done.
Qed.

(** [alloc_page] on a page that is already mapped does not release the
    frame the page was mapped to: the counter of that frame keeps its
    value while one mapping of the frame is gone. *)
Theorem alloc_page_remap_leaks
    (m : fresh_memory) (vpn : nat) (rw : Z) (st st' : machine) (r : Z)
    (q : process) (e : pte) :
  machine_inv st →
  heap st !! current st = Some q →
  lookup_pte (p_pagetable q) vpn = Some e →
  valid e = true →
  alloc_page m vpn rw st = Some (r, st') →
  r ≠ NO_FRAME →
  mapcount st' (pfn e) = mapcount st (pfn e) ∧
  S (mappings st' (pfn e)) = mappings st (pfn e) ∧
  ¬ refcount_ok st'.
Proof.
  intros (Hs & _ & Hrc) Hq He Hv Ha Hr.
  destruct (alloc_page_success _ _ _ _ _ _ Ha Hr)
    as (pt & pt1 & old & Hpt & Hens & Hold & Hlt & Hz & -> & ->).
  pose proof Hs as (Hptbr & _ & _).
  rewrite (read_ptbr_current _ _ Hptbr Hq) in Hpt. simplify_eq.
  pose proof (ensure_directory_keeps _ _ _ _ _ _ Hens He) as He1.
  assert (old = e) as -> by congruence.
  pose proof (ensure_directory_present _ _ _ _ _ Hens He) as Hsame1.
  destruct (mapped_counted _ _ _ _ Hs Hrc Hq He Hv) as (c & Hc & Hge).
  set (F := first_free (mapcounts st)) in *.
  assert (F ≠ pfn e) as Hne by (intros Heq; rewrite Heq in Hz; simplify_eq; lia).
  assert (mapcount (write_ptbr st
            (store_pte pt1 vpn (mk_pte true (rw =? 3)%Z F false))
            (<[F := 1%Z]> (mapcounts st))) (pfn e) = mapcount st (pfn e))
    as Hsame.
  { unfold mapcount. simpl. by rewrite list_lookup_insert_ne. }
  pose proof (mappings_write_ptbr st _
    (store_pte pt1 vpn (mk_pte true (rw =? 3)%Z F false))
    (<[F := 1%Z]> (mapcounts st)) (pfn e) Hs
    (read_ptbr_current _ _ Hptbr Hq)) as Hm.
  pose proof (count_pagetable_store (pfn e) pt1 vpn e
    (mk_pte true (rw =? 3)%Z F false) He1) as Hst.
  rewrite Hsame1 in Hst at 2.
  rewrite !maps_frame_cases in Hst. simpl in Hst.
  rewrite decide_True in Hst by done.
  rewrite decide_False in Hst by (intros [_ ?]; done).
  split; [done|]. split; [lia|].
  intros Hrc'. specialize (Hrc' (pfn e)). specialize (Hrc (pfn e)). lia.
Qed.

(** *** Page faults *)

(** The page table a fault leaves installed: the one that was, or that one
    with the entry of [vpn] rewritten. *)
Lemma handle_page_fault_frame_aux vpn rw st st' b pt :
  handle_page_fault vpn rw st = Some (b, st') → read_ptbr st = Some pt →
  st' = st ∨ ∃ e' mc, st' = write_ptbr st (store_pte pt vpn e') mc.
Proof.
  unfold handle_page_fault. intros H Hpt. rewrite Hpt in H. simpl in H.
  repeat (case_match; simplify_option_eq; eauto).
Qed.

(** What [handle_page_fault] never does. A fault that fails leaves the
    whole state as it was. No fault changes which process runs, the ready
    list, or any process other than the one whose page table is installed.
    A fault succeeds only on an entry that is not writable and is private,
    and then leaves it writable and not private without changing its valid
    bit. *)
Theorem handle_page_fault_frame
    (vpn : nat) (rw : Z) (st st' : machine) (b : bool) :
  handle_page_fault vpn rw st = Some (b, st') →
  (b = false → st' = st) ∧
  current st' = current st ∧ ptbr st' = ptbr st ∧
  processes st' = processes st ∧
  (∀ h, h ≠ ptbr st → heap st' !! h = heap st !! h) ∧
  (b = true →
   rw ≠ RW_READ ∧
   ∃ pt pt' e e',
     read_ptbr st = Some pt ∧ read_ptbr st' = Some pt' ∧
     lookup_pte pt vpn = Some e ∧ lookup_pte pt' vpn = Some e' ∧
     writable e = false ∧ private e = true ∧
     writable e' = true ∧ private e' = false ∧ valid e' = valid e).
Proof.
  unfold handle_page_fault. intros H.
  destruct (rw =? RW_READ)%Z eqn:Hrw; [by simplify_eq|].
  apply Z.eqb_neq in Hrw.
  destruct (read_ptbr st) as [pt|] eqn:Hpt; simplify_eq/=.
  destruct (lookup_pte pt vpn) as [e|] eqn:He; simplify_eq/=.
  destruct (writable e) eqn:Hw; [by simplify_eq/=|].
  destruct (private e) eqn:Hp; [|by simplify_eq/=]. simpl in H.
  destruct (mapcounts st !! pfn e) as [c|] eqn:Hc; simplify_eq/=.
  destruct (c =? 1)%Z.
  - simplify_eq. split; [done|]. repeat (split; [done|]).
    split. { intros h Hh. simpl. by apply lookup_set_pagetable_ne. }
    intros _. split; [done|]. eexists pt, _, e, _.
    split; [done|]. split; [by eapply read_write_ptbr|].
    split; [done|]. split; [by eapply lookup_store_eq|]. done.
  - destruct (first_free (mapcounts st) =? NR_PAGEFRAMES); [by simplify_eq|].
    destruct (mc_dec (mapcounts st) (pfn e)) as [mc1|]; simplify_eq/=.
    destruct (mc_inc mc1 (first_free (mapcounts st))) as [mc2|]; simplify_eq/=.
    split; [done|]. repeat (split; [done|]).
    split. { intros h Hh. simpl. by apply lookup_set_pagetable_ne. }
    intros _. split; [done|]. eexists pt, _, e, _.
    split; [done|]. split; [by eapply read_write_ptbr|].
    split; [done|]. split; [by eapply lookup_store_eq|]. done.
Qed.

(** [alloc_page], [free_page] and [handle_page_fault] on one page leave
    the entries of the other pages of the address space as they were.
    [alloc_page] may have allocated the directory of the page: a page with
    no entry before then has none still or has an entry of the fresh
    directory, and when that directory holds no valid entry every other
    page is mapped as it was. *)
Theorem other_pages_untouched
    (vpn vpn' : nat) (st : machine) (pt : pagetable) :
  0 < NR_PTES_PER_PAGE →
  vpn ≠ vpn' →
  read_ptbr st = Some pt →
  (∀ m rw r st',
     alloc_page m vpn rw st = Some (r, st') →
     ∃ pt', read_ptbr st' = Some pt' ∧
            (∀ e, lookup_pte pt vpn' = Some e → lookup_pte pt' vpn' = Some e) ∧
            (∀ e, lookup_pte pt vpn' = None → lookup_pte pt' vpn' = Some e →
                  pd_index_of vpn' = pd_index_of vpn ∧
                  e = fresh_pte m (pd_index_of vpn) (pte_index_of vpn')) ∧
            ((∀ j, valid (fresh_pte m (pd_index_of vpn) j) = false) →
             mapped_frame pt' vpn' = mapped_frame pt vpn')) ∧
  (∀ st',
     free_page vpn st = Some st' →
     ∃ pt', read_ptbr st' = Some pt' ∧
            lookup_pte pt' vpn' = lookup_pte pt vpn') ∧
  (∀ rw b st',
     handle_page_fault vpn rw st = Some (b, st') →
     ∃ pt', read_ptbr st' = Some pt' ∧
            lookup_pte pt' vpn' = lookup_pte pt vpn').
Proof.
  intros Hpos Hne Hpt. split; [|split].
  - intros m rw r st'. unfold alloc_page. rewrite Hpt. simpl.
    destruct (ensure_directory m pt vpn) as [pt1|] eqn:Hens; [|done]. simpl.
    destruct (lookup_pte pt1 vpn) as [old|]; [|done]. simpl.
    destruct (first_free (mapcounts st) =? NR_PAGEFRAMES).
    + intros ?; simplify_eq. eexists. split; [by eapply read_write_ptbr|].
      split; [intros e He; by eapply ensure_directory_keeps|].
      split; [intros e Hn He; by eapply ensure_directory_fresh|].
      intros Hclear. by eapply mapped_frame_ensure.
    + destruct (mc_inc _ _) as [mc|]; [|done]. simpl.
      intros ?; simplify_eq. eexists. split; [by eapply read_write_ptbr|].
      unfold mapped_frame. rewrite lookup_store_ne by done.
      split; [intros e He; by eapply ensure_directory_keeps|].
      split; [intros e Hn He; by eapply ensure_directory_fresh|].
      intros Hclear. by eapply (mapped_frame_ensure m pt vpn).
  - intros st'. unfold free_page. rewrite Hpt. simpl.
    destruct (lookup_pte pt vpn) as [e|]; [|done]. simpl.
    destruct (mc_dec _ _) as [mc|]; [|done]. simpl.
    intros ?; simplify_eq. eexists. split; [by eapply read_write_ptbr|].
    by apply lookup_store_ne.
  - intros rw b st' H.
    destruct (handle_page_fault_frame_aux vpn rw st st' b pt H Hpt)
      as [->|(e' & mc & ->)].
    + eauto.
    + eexists. split; [by eapply read_write_ptbr|]. by apply lookup_store_ne.
Qed.

(** *** Switching *)

Lemma list_del_notin (x : nat) (l : list nat) : x ∉ l → list_del x l = l.
Proof.
  unfold list_del. induction l as [|a l IH]; intros Hx; [done|].
  apply not_elem_of_cons in Hx as [Hne Hx].
  rewrite filter_cons_True by congruence. by rewrite IH.
Qed.

(** Switching to a process of the ready list and back, by pid: the process
    that was running runs again on the same page table, and no page table
    and no counter has changed; the ready list holds the same processes. *)
Theorem switch_round_trip
    (m1 m2 : fresh_memory) (b : nat) (st : machine) (qa : process) :
  sched_ok st →
  heap st !! current st = Some qa →
  pid_ready st b →
  ∃ st1 st2,
    switch_process m1 b st = Some st1 ∧
    current st1 ≠ current st ∧
    switch_process m2 (pid qa) st1 = Some st2 ∧
    current st2 = current st ∧ ptbr st2 = ptbr st ∧
    heap st2 = heap st ∧ mapcounts st2 = mapcounts st ∧
    processes st2 ≡ₚ processes st.
Proof.
  intros Hs Hqa (hb & qb & Hhb & Hqb & Hpid).
  pose proof Hs as (Hptbr & Hnd & Hall).
  unfold all_processes in Hnd. apply NoDup_cons in Hnd as [Hcur Hnd].
  destruct (find_process_total (heap st) b (processes st)) as [found Hfound].
  { intros h Hh. apply lookup_lt_is_Some, Hall. by right. }
  destruct found as [temp|];
    [|by destruct (find_process_not_found _ _ _ Hfound hb qb)].
  destruct (find_process_found _ _ _ _ Hfound) as (Hin & _).
  assert (temp ≠ current st) as Hne by (intros ->; done).
  set (st1 := mk_machine (heap st)
                (current st :: list_del temp (processes st))
                temp temp (mapcounts st)).
  assert (switch_process m1 b st = Some st1) as H1.
  { unfold switch_process. rewrite Hfound. simpl. unfold list_add, list_del.
    rewrite filter_cons_True by congruence. done. }
  assert (find_process (heap st1) (pid qa) (processes st1)
          = Some (Some (current st))) as Hf2.
  { simpl. rewrite Hqa. simpl. by rewrite Nat.eqb_refl. }
  exists st1. eexists. split; [exact H1|]. split; [done|]. split.
  { unfold switch_process. rewrite Hf2. done. }
  simpl. split; [done|]. split; [done|]. split; [done|]. split; [done|].
  unfold list_add, list_del at 1.
  rewrite filter_cons_True by done.
  rewrite filter_cons_False by (intros H; by apply H).
  fold (list_del (current st) (list_del temp (processes st))).
  rewrite list_del_notin.
  - by apply list_del_perm.
  - unfold list_del. rewrite list_elem_of_filter. tauto.
Qed.

(** A page that is mapped read-only and is not a copy-on-write page stays
    so across a fork: the child gets the same entry, and a write fault on
    it in the child fails and changes nothing. *)
Theorem read_only_survives_fork
    (m : fresh_memory) (p vpn : nat) (rw : Z) (st : machine)
    (q : process) (e : pte) :
  machine_inv st →
  heap st !! current st = Some q →
  ¬ pid_ready st p →
  lookup_pte (p_pagetable q) vpn = Some e →
  valid e = true → writable e = false → private e = false →
  ∃ st1 parent child,
    switch_process m p st = Some st1 ∧
    heap st1 !! current st = Some parent ∧
    heap st1 !! current st1 = Some child ∧
    lookup_pte (p_pagetable parent) vpn = Some e ∧
    lookup_pte (p_pagetable child) vpn = Some e ∧
    handle_page_fault vpn rw st1 = Some (false, st1).
Proof.
  intros Hinv Hq Hnot He Hv Hw Hp.
  destruct (switch_process_fork m p st q (proj1 Hinv) (proj2 (proj2 Hinv))
              Hq Hnot) as (mc' & Hsw & _).
  destruct Hinv as ((_ & _ & Hall) & _ & _).
  assert (current st < length (heap st)) as Hcur by (apply Hall; by left).
  assert (cow_protect e = e) as Hprot by (unfold cow_protect; by rewrite Hv, Hw).
  assert (∀ u, child_pte u e = e) as Hchild.
  { intros u. unfold child_pte. rewrite Hprot, Hv.
    destruct e; simpl in *; congruence. }
  eexists _, _, _. split; [exact Hsw|]. simpl.
  split.
  { rewrite lookup_app_l by (by rewrite length_set_pagetable).
    by apply lookup_set_pagetable_eq. }
  assert ((set_pagetable (current st) (protect_pagetable (p_pagetable q))
             (heap st) ++ [mk_process p (child_pagetable m (p_pagetable q))])
            !! length (heap st)
          = Some (mk_process p (child_pagetable m (p_pagetable q)))) as Hch.
  { rewrite lookup_app_r by (by rewrite length_set_pagetable).
    by rewrite length_set_pagetable, Nat.sub_diag. }
  split; [exact Hch|]. simpl.
  assert (lookup_pte (child_pagetable m (p_pagetable q)) vpn = Some e) as Hce.
  { rewrite (lookup_pte_child m _ _ _ He). by rewrite Hchild. }
  split.
  { unfold protect_pagetable. rewrite lookup_pte_map_slot, He. simpl.
    by rewrite Hprot. }
  split; [exact Hce|].
  eapply (proj2 (handle_page_fault_refuses vpn rw _)); [|exact Hce|by right].
  unfold read_ptbr. simpl. by rewrite Hch.
Qed.

(** *** Writable pages are never shared *)

Lemma ensure_directory_valid m pt vpn pt1 vpn' e :
  0 < NR_PTES_PER_PAGE →
  (∀ j, valid (fresh_pte m (pd_index_of vpn) j) = false) →
  ensure_directory m pt vpn = Some pt1 →
  lookup_pte pt1 vpn' = Some e → valid e = true →
  lookup_pte pt vpn' = Some e.
Proof.
  intros Hpos Hclear Hens He Hv.
  pose proof (mapped_frame_ensure m pt vpn pt1 vpn' Hpos Hclear Hens) as Hm.
  unfold mapped_frame in Hm. rewrite He in Hm. simpl in Hm. rewrite Hv in Hm.
  destruct (lookup_pte pt vpn') as [e0|] eqn:He0; [|done].
  by rewrite (ensure_directory_keeps _ _ _ _ _ _ Hens He0) in He.
Qed.

Lemma two_entries_counted F pt vpn vpn' e0 e :
  0 < NR_PTES_PER_PAGE → vpn ≠ vpn' →
  lookup_pte pt vpn = Some e0 → lookup_pte pt vpn' = Some e →
  maps_frame F e0 + maps_frame F e ≤ count_pagetable F pt.
Proof.
  intros Hpos Hne He0 He.
  pose proof (count_pagetable_store F pt vpn e0 zero_pte He0) as H1.
  assert (lookup_pte (store_pte pt vpn zero_pte) vpn' = Some e) as He'
    by (by rewrite lookup_store_ne).
  pose proof (maps_frame_le_count F _ _ _ He') as H2.
  unfold maps_frame at 2 in H1. simpl in H1. lia.
Qed.

Lemma ready_counted st h F :
  h ∈ processes st →
  count_process (heap st) F (current st) + count_process (heap st) F h
  ≤ mappings st F.
Proof.
  intros Hh. rewrite mappings_unfold.
  pose proof (sum_list_with_in h (count_process (heap st) F) _ Hh). lia.
Qed.

(** What is left to check after the installed page table and the counters
    have been written. *)
Lemma writable_exclusive_write st pt' mc :
  sched_ok st →
  (∀ vpn e, lookup_pte pt' vpn = Some e → valid e = true → writable e = true →
            default 0%Z (mc !! pfn e) = 1%Z) →
  (∀ h q vpn e,
     h ∈ processes st → heap st !! h = Some q →
     lookup_pte (p_pagetable q) vpn = Some e →
     valid e = true → writable e = true →
     default 0%Z (mc !! pfn e) = 1%Z) →
  writable_exclusive (write_ptbr st pt' mc).
Proof.
  intros Hs Hcur Hready h q vpn e Hh Hq He Hv Hw.
  pose proof Hs as (Hptbr & _ & _).
  destruct (sched_ok_current st Hs) as [q0 Hq0].
  unfold mapcount. simpl in *. unfold all_processes in Hh. simpl in Hh.
  apply elem_of_cons in Hh as [->|Hh].
  - rewrite Hptbr, (lookup_set_pagetable_eq _ _ _ _ Hq0) in Hq.
    simplify_eq. by eapply Hcur.
  - rewrite lookup_set_pagetable_ne in Hq; [by eapply Hready|].
    rewrite Hptbr. intros Heq. by apply (sched_ok_ready_ne st h Hs Hh).
Qed.

Lemma alloc_page_exclusive m vpn rw st r st' :
  fresh_clear m →
  machine_inv st → writable_exclusive st →
  alloc_page m vpn rw st = Some (r, st') → writable_exclusive st'.
Proof.
  intros [_ Hclear] (Hs & (Hpos & _) & _) Hwe.
  pose proof Hs as (Hptbr & _ & _).
  destruct (sched_ok_current st Hs) as [q Hq].
  pose proof (read_ptbr_current _ _ Hptbr Hq) as Hpt.
  unfold alloc_page. rewrite Hpt. simpl.
  destruct (ensure_directory m (p_pagetable q) vpn) as [pt1|] eqn:Hens;
    [|done].
  simpl. destruct (lookup_pte pt1 vpn) as [old|] eqn:Hold; [|done]. simpl.
  assert (∀ vpn' e, lookup_pte pt1 vpn' = Some e → valid e = true →
                    writable e = true → mapcount st (pfn e) = 1%Z) as Hcur.
  { intros vpn' e He Hv Hw.
    apply (Hwe (current st) q vpn' e); try done; [by left|].
    by eapply (ensure_directory_valid m). }
  assert (∀ h q' vpn' e, h ∈ processes st → heap st !! h = Some q' →
            lookup_pte (p_pagetable q') vpn' = Some e → valid e = true →
            writable e = true → mapcount st (pfn e) = 1%Z) as Hready.
  { intros h q' vpn' e Hh. apply Hwe. by right. }
  destruct (first_free (mapcounts st) =? NR_PAGEFRAMES) eqn:Hff.
  { intros ?; simplify_eq. by apply writable_exclusive_write. }
  unfold mc_inc.
  destruct (mapcounts st !! first_free (mapcounts st)) as [c|] eqn:Hc; [|done].
  simpl. intros ?; simplify_eq.
  assert (c = 0%Z) as ->.
  { apply Nat.eqb_neq in Hff. pose proof (first_free_le (mapcounts st)).
    unfold first_free in *.
    destruct (scan_frames_stop NR_PAGEFRAMES (mapcounts st) 0) as [H0|H0];
      [lia|lia| |]; congruence. }
  assert (∀ f, mapcount st f = 1%Z →
            default 0%Z (<[first_free (mapcounts st) := u32 (0 + 1)]>
                           (mapcounts st) !! f) = 1%Z) as Hkeep.
  { intros f Hf. rewrite (mapcount_insert _ _ _ _ f Hc).
    case_decide; [done|]. exact Hf. }
  apply writable_exclusive_write; [done| |].
  - intros vpn' e He Hv Hw. destruct (decide (vpn = vpn')) as [<-|Hne].
    + rewrite (lookup_store_eq _ _ _ _ Hold) in He. simplify_eq. simpl.
      rewrite list_lookup_insert_eq by (by eapply lookup_lt_Some). done.
    + rewrite lookup_store_ne in He by done. by eapply Hkeep, Hcur.
  - intros h q' vpn' e Hh Hq' He Hv Hw. by eapply Hkeep, Hready.
Qed.

Lemma free_page_exclusive vpn st st' :
  machine_inv st → writable_exclusive st → page_mapped st vpn →
  free_page vpn st = Some st' → writable_exclusive st'.
Proof.
  intros (Hs & (Hpos & _) & Hrc) Hwe (q & e0 & Hq & He0 & Hv0).
  pose proof Hs as (Hptbr & _ & _).
  pose proof (read_ptbr_current _ _ Hptbr Hq) as Hpt.
  unfold free_page. rewrite Hpt. simpl. rewrite He0. simpl.
  unfold mc_dec.
  destruct (mapcounts st !! pfn e0) as [c|] eqn:Hc; [|done]. simpl.
  intros ?; simplify_eq.
  assert (∀ f, mapcount st f = 1%Z → f ≠ pfn e0 →
            default 0%Z (<[pfn e0 := u32 (c - 1)]> (mapcounts st) !! f) = 1%Z)
    as Hkeep.
  { intros f Hf Hne. by rewrite list_lookup_insert_ne. }
  apply writable_exclusive_write; [done| |].
  - intros vpn' e He Hv Hw. destruct (decide (vpn = vpn')) as [<-|Hne].
    { rewrite (lookup_store_eq _ _ _ _ He0) in He. by simplify_eq. }
    rewrite lookup_store_ne in He by done.
    assert (mapcount st (pfn e) = 1%Z) as Hone
      by (apply (Hwe (current st) q vpn' e); try done; by left).
    apply Hkeep; [done|]. intros Heq.
    pose proof (two_entries_counted (pfn e) _ _ _ _ _ Hpos Hne He0 He) as H2.
    rewrite !maps_frame_cases in H2.
    rewrite !decide_True in H2 by done.
    specialize (Hrc (pfn e)). rewrite mappings_unfold in Hrc.
    rewrite (count_process_lookup _ _ _ _ Hq) in Hrc. lia.
  - intros h q' vpn' e Hh Hq' He Hv Hw.
    assert (mapcount st (pfn e) = 1%Z) as Hone
      by (apply (Hwe h q' vpn' e); try done; by right).
    apply Hkeep; [done|]. intros Heq.
    pose proof (ready_counted st h (pfn e) Hh) as H2.
    rewrite (count_process_lookup _ _ _ _ Hq) in H2.
    rewrite (count_process_lookup _ _ _ _ Hq') in H2.
    pose proof (maps_frame_le_count (pfn e) _ _ _ He0) as H3.
    pose proof (maps_frame_le_count (pfn e) _ _ _ He) as H4.
    rewrite !maps_frame_cases in H3, H4.
    rewrite decide_True in H3 by done. rewrite decide_True in H4 by done.
    specialize (Hrc (pfn e)). lia.
Qed.

Lemma handle_page_fault_exclusive vpn rw st b st' :
  machine_inv st → writable_exclusive st →
  handle_page_fault vpn rw st = Some (b, st') → writable_exclusive st'.
Proof.
  intros (Hs & (Hpos & _) & Hrc) Hwe.
  pose proof Hs as (Hptbr & _ & _).
  destruct (sched_ok_current st Hs) as [q Hq].
  pose proof (read_ptbr_current _ _ Hptbr Hq) as Hpt.
  unfold handle_page_fault.
  destruct (rw =? RW_READ)%Z; [by intros ?; simplify_eq|].
  rewrite Hpt. simpl.
  destruct (lookup_pte (p_pagetable q) vpn) as [e0|] eqn:He0; [|done]. simpl.
  destruct (negb (writable e0) && private e0); [|by intros ?; simplify_eq].
  destruct (mapcounts st !! pfn e0) as [c|] eqn:Hc; [|done]. simpl.
  assert (∀ vpn' e, vpn ≠ vpn' → lookup_pte (p_pagetable q) vpn' = Some e →
            valid e = true → writable e = true → mapcount st (pfn e) = 1%Z)
    as Hcur.
  { intros vpn' e _ He. apply (Hwe (current st) q vpn' e); try done. by left. }
  assert (∀ h q' vpn' e, h ∈ processes st → heap st !! h = Some q' →
            lookup_pte (p_pagetable q') vpn' = Some e → valid e = true →
            writable e = true → mapcount st (pfn e) = 1%Z) as Hready.
  { intros h q' vpn' e Hh. apply Hwe. by right. }
  destruct (c =? 1)%Z eqn:Hone.
  - apply Z.eqb_eq in Hone. subst c. intros ?; simplify_eq.
    apply writable_exclusive_write; [done| |exact Hready].
    intros vpn' e He Hv Hw. destruct (decide (vpn = vpn')) as [<-|Hne].
    + rewrite (lookup_store_eq _ _ _ _ He0) in He. simplify_eq. simpl.
      by rewrite Hc.
    + rewrite lookup_store_ne in He by done. by eapply Hcur.
  - apply Z.eqb_neq in Hone.
    destruct (first_free (mapcounts st) =? NR_PAGEFRAMES) eqn:Hff;
      [by intros ?; simplify_eq|].
    apply Nat.eqb_neq in Hff. pose proof (first_free_le (mapcounts st)) as Hle.
    set (F := first_free (mapcounts st)) in *.
    unfold mc_dec, mc_inc. rewrite Hc. simpl.
    destruct (<[pfn e0 := u32 (c - 1)]> (mapcounts st) !! F) as [c'|] eqn:Hc';
      [|done].
    simpl. intros ?; simplify_eq.
    assert (mapcounts st !! F = Some 0%Z) as Hz.
    { assert (is_Some (mapcounts st !! F)) as [c0 Hc0].
      { apply lookup_lt_is_Some. apply lookup_lt_Some in Hc'.
        by rewrite length_insert in Hc'. }
      unfold F, first_free in *.
      destruct (scan_frames_stop NR_PAGEFRAMES (mapcounts st) 0) as [H0|H0];
        [lia|lia| |]; congruence. }
    assert (∀ f, mapcount st f = 1%Z →
              default 0%Z (<[F := u32 (c' + 1)]>
                             (<[pfn e0 := u32 (c - 1)]> (mapcounts st)) !! f)
              = 1%Z) as Hkeep.
    { intros f Hf. unfold mapcount in Hf.
      rewrite !list_lookup_insert_ne; [done| |].
      - intros <-. rewrite Hc in Hf. simpl in Hf. lia.
      - intros <-. rewrite Hz in Hf. simpl in Hf. lia. }
    apply writable_exclusive_write; [done| |].
    + intros vpn' e He Hv Hw. destruct (decide (vpn = vpn')) as [<-|Hne].
      * rewrite (lookup_store_eq _ _ _ _ He0) in He. simplify_eq. simpl in *.
        destruct (mapped_counted _ _ _ _ Hs Hrc Hq He0 Hv) as (c1 & Hc1 & Hge).
        assert (F ≠ pfn e0) as HF
          by (intros Heq; rewrite Heq in Hz; simplify_eq; lia).
        rewrite list_lookup_insert_ne in Hc' by done. simplify_eq.
        rewrite list_lookup_insert_eq
          by (rewrite length_insert; by eapply lookup_lt_Some). done.
      * rewrite lookup_store_ne in He by done. by eapply Hkeep, Hcur.
    + intros h q' vpn' e Hh Hq' He Hv Hw. by eapply Hkeep, Hready.
Qed.

Lemma cow_protect_not_writable e :
  valid (cow_protect e) = true → writable (cow_protect e) = false.
Proof.
  unfold cow_protect. destruct (valid e) eqn:Hv, (writable e) eqn:Hw; simpl;
    congruence.
Qed.

Lemma child_pte_not_writable u e :
  valid u = false →
  valid (child_pte u e) = true → writable (child_pte u e) = false.
Proof.
  unfold child_pte, cow_protect.
  destruct (valid e) eqn:Hv, (writable e) eqn:Hw; simpl; congruence.
Qed.

Lemma switch_process_exclusive m p st st' :
  machine_inv st → writable_exclusive st →
  (pid_ready st p ∨
   fresh_clear m ∧
   ∀ q, heap st !! current st = Some q → fork_fits st (p_pagetable q)) →
  switch_process m p st = Some st' → writable_exclusive st'.
Proof.
  intros Hinv Hwe Hpre Hsw.
  pose proof Hinv as (Hs & Hsh & Hrc).
  pose proof Hs as (Hptbr & Hnd & Hall).
  destruct (find_process_total (heap st) p (processes st)) as [found Hfound].
  { intros h Hh. apply lookup_lt_is_Some, Hall. by right. }
  destruct found as [temp|].
  - destruct (find_process_found _ _ _ _ Hfound) as (Hin & _).
    unfold switch_process in Hsw. rewrite Hfound in Hsw. simplify_eq/=.
    intros h q vpn e Hh. apply Hwe.
    unfold all_processes in *. simpl in Hh.
    apply elem_of_cons in Hh as [->|Hh]; [by right|].
    unfold list_del, list_add in Hh. apply list_elem_of_filter in Hh. tauto.
  - destruct (sched_ok_current st Hs) as [q Hq].
    assert (¬ pid_ready st p) as Hnot.
    { intros (h & qh & Hh & Hqh & Hpid).
      by destruct (find_process_not_found _ _ _ Hfound h qh). }
    assert (fresh_clear m ∧ fork_fits st (p_pagetable q)) as [Hclear Hfits]
      by (destruct Hpre as [?|[? Hf]]; [done|split; [done|by apply Hf]]).
    destruct (switch_process_fork m p st q Hs Hrc Hq Hnot)
      as (mc' & Hsw' & Hlen & Hgrow).
    rewrite Hsw' in Hsw. simplify_eq.
    pose proof Hsh as (_ & _ & Hmc & _).
    destruct (Hgrow Hmc) as [_ Hcount].
    assert (current st < length (heap st)) as Hcur by (apply Hall; by left).
    intros h q' vpn e Hh Hq' He Hv Hw. unfold mapcount. simpl in *.
    unfold all_processes in Hh. simpl in Hh.
    apply elem_of_cons in Hh as [->|Hh].
    { rewrite lookup_app_r in Hq' by (by rewrite length_set_pagetable).
      rewrite length_set_pagetable, Nat.sub_diag in Hq'. simplify_eq/=.
      destruct (lookup_pte_child_inv _ _ _ _ Hclear He) as (e1 & _ & ->).
      rewrite child_pte_not_writable in Hw; [done| |done].
      apply Hclear. }
    assert (h < length (heap st)) as Hlt by (by apply Hall).
    rewrite lookup_app_l in Hq' by (by rewrite length_set_pagetable).
    apply elem_of_cons in Hh as [->|Hh].
    { rewrite (lookup_set_pagetable_eq _ _ _ _ Hq) in Hq'. simplify_eq/=.
      unfold protect_pagetable in He. rewrite lookup_pte_map_slot in He.
      destruct (lookup_pte (p_pagetable q) vpn) as [e1|]; simplify_eq/=.
      rewrite cow_protect_not_writable in Hw; done. }
    rewrite lookup_set_pagetable_ne in Hq'
      by (intros Heq; by apply (sched_ok_ready_ne st h Hs Hh)).
    assert (mapcount st (pfn e) = 1%Z) as Hone
      by (apply (Hwe h q' vpn e); try done; by right).
    rewrite Hcount by apply Hfits. fold (mapcount st (pfn e)). rewrite Hone.
    pose proof (ready_counted st h (pfn e) Hh) as H2.
    rewrite (count_process_lookup _ _ _ _ Hq) in H2.
    rewrite (count_process_lookup _ _ _ _ Hq') in H2.
    pose proof (maps_frame_le_count (pfn e) _ _ _ He) as H3.
    rewrite maps_frame_cases, decide_True in H3 by done.
    specialize (Hrc (pfn e)). lia.
Qed.

(** A page that can be written is never shared. If, in a consistent
    machine, every valid and writable entry names a frame whose counter
    is 1, then such an entry is the only valid entry, over all processes,
    that maps its frame; and each of the four operations, called as in
    [refcount_conservation] ([alloc_page] and the fork of [switch_process]
    with memory from [malloc] that holds no pointer and no valid entry),
    leaves a machine with the same two properties. *)
Theorem writable_pages_exclusive (st : machine) :
  machine_inv st →
  writable_exclusive st →
  (∀ h q vpn e,
     h ∈ all_processes st → heap st !! h = Some q →
     lookup_pte (p_pagetable q) vpn = Some e →
     valid e = true → writable e = true →
     mappings st (pfn e) = 1) ∧
  (∀ m vpn rw,
     fresh_clear m →
     vpn < NR_PTES_PER_PAGE * NR_PTES_PER_PAGE → ¬ page_mapped st vpn →
     ∃ r st', alloc_page m vpn rw st = Some (r, st') ∧
              machine_inv st' ∧ writable_exclusive st') ∧
  (∀ vpn,
     page_mapped st vpn →
     ∃ st', free_page vpn st = Some st' ∧
            machine_inv st' ∧ writable_exclusive st') ∧
  (∀ vpn rw,
     rw = RW_READ ∨ page_mapped st vpn →
     ∃ b st', handle_page_fault vpn rw st = Some (b, st') ∧
              machine_inv st' ∧ writable_exclusive st') ∧
  (∀ m p,
     pid_ready st p ∨
     fresh_clear m ∧
     (∀ q, heap st !! current st = Some q → fork_fits st (p_pagetable q)) →
     ∃ st', switch_process m p st = Some st' ∧
            machine_inv st' ∧ writable_exclusive st').
Proof.
  intros Hinv Hwe. split; [|split; [|split; [|split]]].
  - intros h q vpn e Hh Hq He Hv Hw.
    pose proof (Hwe h q vpn e Hh Hq He Hv Hw) as Hone.
    destruct Hinv as (_ & _ & Hrc). specialize (Hrc (pfn e)). lia.
  - intros m vpn rw Hclear Hvpn Hfree.
    destruct (alloc_page_inv m vpn rw st Hclear Hinv Hvpn Hfree)
      as (r & st' & H & Hi).
    exists r, st'. split; [done|]. split; [done|].
    exact (alloc_page_exclusive m vpn rw st r st' Hclear Hinv Hwe H).
  - intros vpn Hm.
    destruct (free_page_inv vpn st Hinv Hm) as (st' & H & Hi).
    exists st'. split; [done|]. split; [done|].
    exact (free_page_exclusive vpn st st' Hinv Hwe Hm H).
  - intros vpn rw Hpre.
    destruct (handle_page_fault_inv vpn rw st Hinv Hpre)
      as (b & st' & H & Hi).
    exists b, st'. split; [done|]. split; [done|].
    exact (handle_page_fault_exclusive vpn rw st b st' Hinv Hwe H).
  - intros m p Hpre.
    destruct (switch_process_inv m p st Hinv Hpre) as (st' & H & Hi).
    exists st'. split; [done|]. split; [done|].
    exact (switch_process_exclusive m p st st' Hinv Hwe Hpre H).
Qed.

(** *** Fork, then write *)

(** Copy on write, end to end. The current process forks while it maps
    [vpn] writable, and the child then takes a write fault on [vpn]. With
    [F] the free frame of least index before the fork, the fault succeeds:
    the child maps [vpn] to [F], writable, with a counter of 1, and the
    parent still maps it to the old frame, protected. The counter of the
    old frame is what it was before the fork when the parent maps no frame
    twice. *)
Theorem fork_then_write
    (m : fresh_memory) (p vpn : nat) (rw : Z) (st : machine)
    (q : process) (e : pte) (F : nat) :
  machine_inv st →
  heap st !! current st = Some q →
  ¬ pid_ready st p →
  fork_fits st (p_pagetable q) →
  lookup_pte (p_pagetable q) vpn = Some e →
  valid e = true → writable e = true →
  rw ≠ RW_READ →
  mapcounts st !! F = Some 0%Z →
  (∀ i, i < F → mapcounts st !! i ≠ Some 0%Z) →
  ∃ st1 st2 parent child,
    switch_process m p st = Some st1 ∧
    handle_page_fault vpn rw st1 = Some (true, st2) ∧
    current st2 ≠ current st ∧
    heap st2 !! current st = Some parent ∧
    heap st2 !! current st2 = Some child ∧
    pid child = p ∧
    lookup_pte (p_pagetable child) vpn = Some (mk_pte true true F false) ∧
    lookup_pte (p_pagetable parent) vpn =
      Some (mk_pte true false (pfn e) true) ∧
    mapcount st2 F = 1%Z ∧
    (frames_distinct (p_pagetable q) →
     mapcount st2 (pfn e) = mapcount st (pfn e)).
Proof.
  intros Hinv Hq Hnot Hfits He Hv Hw Hrw HF Hleast.
  pose proof Hinv as (Hs & Hsh & Hrc).
  destruct (switch_process_fork m p st q Hs Hrc Hq Hnot)
    as (mc' & Hsw & Hlen' & Hgrow).
  pose proof Hs as (Hptbr & _ & Hall).
  pose proof Hsh as (_ & Hlen & Hmc & _).
  destruct (Hgrow Hmc) as [Hmc' Hcount].
  assert (∀ G, default 0%Z (mc' !! G) =
               (mapcount st G +
                Z.of_nat (count_pagetable G (p_pagetable q)))%Z) as Hcnt
    by (intros G; apply Hcount, Hfits).
  assert (current st < length (heap st)) as Hcur by (apply Hall; by left).
  (* the child's entry and its counter after the fork *)
  destruct (mapped_counted _ _ _ _ Hs Hrc Hq He Hv) as (c0 & Hc0 & Hc0ge).
  pose proof (maps_frame_le_count (pfn e) _ _ _ He) as Hge.
  rewrite maps_frame_cases, decide_True in Hge by done.
  destruct (lookup_lt_is_Some_2 mc' (pfn e)) as [c1 Hc1].
  { rewrite Hlen'. by eapply lookup_lt_Some. }
  assert (c1 = c0 + Z.of_nat (count_pagetable (pfn e) (p_pagetable q)))%Z
    as Hc1eq.
  { pose proof (Hcnt (pfn e)) as H. unfold mapcount in H.
    by rewrite Hc1, Hc0 in H. }
  assert (0 ≤ c1 < 2 ^ 32)%Z as Hc1r
    by (rewrite Forall_lookup in Hmc'; by apply (Hmc' _ _ Hc1)).
  (* the scan after the fork stops where it would have stopped before *)
  assert (count_pagetable F (p_pagetable q) = 0) as HF0.
  { pose proof (Hrc F) as H. unfold mapcount in H. rewrite HF in H.
    rewrite mappings_unfold, (count_process_lookup _ _ _ _ Hq) in H.
    simpl in H. lia. }
  assert (mc' !! F = Some 0%Z) as HF'.
  { destruct (lookup_lt_is_Some_2 mc' F) as [x Hx].
    { rewrite Hlen'. by eapply lookup_lt_Some. }
    pose proof (Hcnt F) as H. unfold mapcount in H.
    rewrite Hx, HF, HF0 in H. simpl in H. by subst x. }
  assert (first_free mc' = F) as Hff.
  { apply first_free_least; [congruence|done|].
    intros i Hi Hzero. pose proof (Hcnt i) as H. unfold mapcount in H.
    rewrite Hzero in H. simpl in H.
    destruct (mapcounts st !! i) as [ci|] eqn:Hci; simpl in H.
    - rewrite Forall_lookup in Hmc. pose proof (Hmc _ _ Hci).
      assert (ci = 0%Z) as -> by lia. by apply (Hleast i).
    - apply lookup_ge_None in Hci. apply lookup_lt_Some in HF. lia. }
  assert (F < NR_PAGEFRAMES) as HFlt
    by (rewrite <- Hlen; by eapply lookup_lt_Some).
  assert (F ≠ pfn e) as Hne by (intros ->; simplify_eq; lia).
  (* the fault in the child *)
  set (hp1 := set_pagetable (current st) (protect_pagetable (p_pagetable q))
                (heap st) ++ [mk_process p (child_pagetable m (p_pagetable q))])
    in *.
  assert (hp1 !! length (heap st)
          = Some (mk_process p (child_pagetable m (p_pagetable q)))) as Hch.
  { unfold hp1. rewrite lookup_app_r by (by rewrite length_set_pagetable).
    by rewrite length_set_pagetable, Nat.sub_diag. }
  assert (lookup_pte (child_pagetable m (p_pagetable q)) vpn
          = Some (mk_pte true false (pfn e) true)) as Hce.
  { rewrite (lookup_pte_child m _ _ _ He).
    unfold child_pte, cow_protect. by rewrite Hv, Hw. }
  eexists _, _, _, _. split; [exact Hsw|].
  split.
  { unfold handle_page_fault. rewrite (proj2 (Z.eqb_neq _ _) Hrw).
    unfold read_ptbr. simpl. rewrite Hch. simpl. rewrite Hce. simpl.
    rewrite Hc1. simpl. rewrite (proj2 (Z.eqb_neq c1 1)) by lia.
    rewrite Hff, (proj2 (Nat.eqb_neq _ _)) by lia.
    unfold mc_dec, mc_inc. rewrite Hc1. simpl.
    rewrite list_lookup_insert_ne, HF' by done. simpl.
    rewrite (u32_small (c1 - 1)), (u32_small (0 + 1)) by lia. done. }
  simpl. split; [lia|].
  assert (length hp1 = S (length (heap st))) as Hl1.
  { unfold hp1. rewrite length_app, length_set_pagetable. simpl. lia. }
  split.
  { rewrite lookup_set_pagetable_ne by lia. unfold hp1.
    rewrite lookup_app_l by (by rewrite length_set_pagetable).
    by apply lookup_set_pagetable_eq. }
  split. { by apply lookup_set_pagetable_eq. }
  split; [done|]. simpl.
  split. { by eapply lookup_store_eq. }
  split.
  { unfold protect_pagetable. rewrite lookup_pte_map_slot, He. simpl.
    unfold cow_protect. by rewrite Hv, Hw. }
  unfold mapcount. simpl. split.
  { rewrite list_lookup_insert_eq; [done|].
    rewrite length_insert. by eapply lookup_lt_Some. }
  intros Hdist. pose proof (Hdist (pfn e)) as Hle.
  rewrite list_lookup_insert_ne by done.
  rewrite list_lookup_insert_eq by (by eapply lookup_lt_Some).
  rewrite Hc0. simpl. lia.
Qed.


End More.

(** ** The properties at work in the small configuration *)

#[local] Existing Instance small_cfg.

(** The example states are reached from [ex_boot] by the operations, in
    zero-filled memory. *)
Lemma ex_runs :
  alloc_page zero_memory 0 3 ex_boot = Some (0%Z, ex_mapped) ∧
  switch_process zero_memory 7 ex_mapped = Some ex_forked ∧
  switch_process zero_memory 8 ex_forked = Some ex_forked2 ∧
  free_page (cfg := small_cfg) 0 ex_forked2 = Some ex_freed ∧
  switch_process zero_memory 0 ex_boot = Some ex_twins ∧
  (st ← snd <$> handle_page_fault (cfg := small_cfg) 0 3 ex_forked;
   switch_process zero_memory 0 st) = Some ex_sole.
Proof. repeat split; reflexivity. Qed.

(** [ex_full] is reached in memory that is not zero: every entry [malloc]
    left unwritten has been written by then. *)
Lemma ex_runs_dirty :
  (st1 ← snd <$> alloc_page dirty_memory 0 3 ex_boot;
   st2 ← snd <$> alloc_page dirty_memory 1 3 st1;
   st3 ← switch_process dirty_memory 7 st2;
   st4 ← snd <$> handle_page_fault 0 3 st3;
   snd <$> handle_page_fault 1 3 st4) = Some ex_full ∧
  switch_process dirty_memory 7 ex_mapped = Some ex_forked_dirty.
Proof. split; reflexivity. Qed.

Lemma zero_memory_clear : fresh_clear zero_memory.
Proof. by split. Qed.

Lemma ex_boot_inv : machine_inv (cfg := small_cfg) ex_boot.
Proof. solve_machine_inv. Qed.

Lemma ex_mapped_inv : machine_inv (cfg := small_cfg) ex_mapped.
Proof. solve_machine_inv. Qed.

Lemma ex_forked_inv : machine_inv (cfg := small_cfg) ex_forked.
Proof. solve_machine_inv. Qed.

Lemma ex_twins_inv : machine_inv (cfg := small_cfg) ex_twins.
Proof. solve_machine_inv. Qed.

Lemma ex_twice_inv : machine_inv (cfg := small_cfg) ex_twice.
Proof. solve_machine_inv. Qed.

Lemma ex_full_inv : machine_inv (cfg := small_cfg) ex_full.
Proof. solve_machine_inv. Qed.

Lemma ex_forked_mapped : page_mapped (cfg := small_cfg) ex_forked 0.
Proof. by eexists _, _. Qed.

Lemma ex_forked_unmapped : ¬ page_mapped (cfg := small_cfg) ex_forked 1.
Proof.
  intros (q & e & Hq & He & Hv). vm_compute in Hq. simplify_eq.
  vm_compute in He. simplify_eq.
Qed.

Lemma ex_no_ready st p : processes st = [] → ¬ pid_ready st p.
Proof.
  intros Hnil (h & q & Hh & _). rewrite Hnil in Hh. by apply elem_of_nil in Hh.
Qed.

(** *** Instances of the theorems *)

Lemma cow_shared_duplication_witness :
  mapcounts ex_forked !! 0 = Some 2%Z ∧
  ∃ st' q',
    handle_page_fault 0 3 ex_forked = Some (true, st') ∧
    heap st' !! 1 = Some q' ∧
    lookup_pte (p_pagetable q') 0 = Some (mk_pte true true 1 false) ∧
    mapcounts st' !! 0 = Some 1%Z ∧
    mapcounts st' !! 1 = Some 1%Z ∧
    heap st' !! 0 = Some (mk_process 0 shared_pt).
Proof.
  split; [reflexivity|].
  destruct (cow_shared_duplication 0 3 ex_forked
              (mk_process 7 shared_pt) (mk_pte true false 0 true) 2)
    as [H _]; try reflexivity.
  - simpl; lia.
  - lia.
  - destruct (H 1) as (st' & q' & H1 & _ & H2 & H3 & H4 & H5 & _ & H6).
    + reflexivity.
    + intros i Hi. destruct i as [|i]; [done|lia].
    + exists st', q'. repeat split; try assumption.
      rewrite (H6 0) by (simpl; lia). reflexivity.
Defined.

Lemma cow_sole_owner_promotion_witness :
  mapcounts ex_sole !! 0 = Some 1%Z ∧
  ∃ st' q',
    handle_page_fault 0 3 ex_sole = Some (true, st') ∧
    heap st' !! 0 = Some q' ∧
    lookup_pte (p_pagetable q') 0 = Some (mk_pte true true 0 false) ∧
    mapcounts st' = mapcounts ex_sole.
Proof.
  split; [reflexivity|].
  destruct (cow_sole_owner_promotion 0 3 ex_sole
              (mk_process 0 shared_pt) (mk_pte true false 0 true))
    as (st' & q' & H1 & _ & H2 & H3 & H4 & _); try reflexivity.
  - simpl; lia.
  - exists st', q'. auto.
Defined.

Lemma refcount_conservation_witness :
  machine_inv ex_forked ∧ fresh_clear zero_memory ∧
  (∃ st', free_page 0 ex_forked = Some st' ∧ refcount_ok st') ∧
  (∃ r st', alloc_page zero_memory 1 3 ex_forked = Some (r, st') ∧
            refcount_ok st') ∧
  (∃ st', switch_process zero_memory 0 ex_forked = Some st' ∧
          refcount_ok st').
Proof.
  split; [apply ex_forked_inv|]. split; [apply zero_memory_clear|].
  destruct (refcount_conservation ex_forked ex_forked_inv)
    as (Halloc & Hfree & _ & Hswitch).
  split; [|split].
  - destruct (Hfree 0 ex_forked_mapped) as (st' & H1 & _ & H2).
    exists st'. auto.
  - destruct (Halloc zero_memory 1 3%Z zero_memory_clear)
      as (r & st' & H1 & _ & H2).
    + simpl; lia.
    + apply ex_forked_unmapped.
    + exists r, st'. auto.
  - destruct (Hswitch zero_memory 0) as (st' & H1 & _ & H2).
    + left. exists 0, (mk_process 0 shared_pt). split; [by left|done].
    + exists st'. auto.
Defined.

Lemma ex_mapped_fork_pre :
  ¬ pid_ready ex_mapped 7 ∧
  frames_distinct [Some [mk_pte true true 0 false; zero_pte]; None] ∧
  fork_fits ex_mapped [Some [mk_pte true true 0 false; zero_pte]; None].
Proof.
  split; [|split].
  - by apply ex_no_ready.
  - intros F. do 2 (destruct F as [|F]; [vm_compute; lia|]). vm_compute; lia.
  - intros F. do 4 (destruct F as [|F]; [vm_compute; done|]). vm_compute; done.
Qed.

Lemma fork_symmetry_witness :
  machine_inv ex_mapped ∧
  ∃ st' parent child,
    switch_process zero_memory 7 ex_mapped = Some st' ∧
    heap st' !! 0 = Some parent ∧
    heap st' !! current st' = Some child ∧
    mapped_frame (p_pagetable child) 0 = Some 0 ∧
    mapped_frame (p_pagetable child) 1 = None ∧
    lookup_pte (p_pagetable parent) 0 = Some (mk_pte true false 0 true) ∧
    lookup_pte (p_pagetable child) 0 = Some (mk_pte true false 0 true) ∧
    mapcount st' 0 = 2%Z.
Proof.
  split; [apply ex_mapped_inv|].
  destruct ex_mapped_fork_pre as (Hp & Hd & Hf).
  destruct (fork_symmetry zero_memory 7 ex_mapped
              (mk_process 0 [Some [mk_pte true true 0 false; zero_pte]; None])
              ex_mapped_inv eq_refl Hp)
    as (st' & parent & child & H1 & H2 & H3 & _ & _ & H4 & H4' & _ & H5 & H6).
  exists st', parent, child.
  destruct (H5 0 (mk_pte true true 0 false) eq_refl eq_refl eq_refl) as [Ha Hb].
  destruct (H6 Hf) as [_ H7].
  repeat split; try assumption.
  - apply (H4 0 0). reflexivity.
  - rewrite (H4' zero_memory_clear 1). reflexivity.
  - exact (H7 Hd 0 (mk_pte true true 0 false) eq_refl eq_refl).
Defined.


Lemma switch_to_own_pid_witness :
  machine_inv ex_boot ∧ ¬ pid_ready ex_boot 0 ∧
  (∃ st' child,
     switch_process zero_memory 0 ex_boot = Some st' ∧
     length (heap st') = 2 ∧
     heap st' !! current st' = Some child ∧ pid child = 0 ∧
     processes st' = [0]) ∧
  machine_inv ex_twins ∧ pid_ready ex_twins 0 ∧
  (∃ st',
     switch_process zero_memory 0 ex_twins = Some st' ∧
     heap st' = heap ex_twins ∧ current st' ≠ current ex_twins ∧
     current ex_twins ∈ processes st').
Proof.
  assert (pid_ready ex_twins 0) as Hready.
  { exists 0, (mk_process 0 [None; None]). split; [by left|done]. }
  pose proof (ex_no_ready ex_boot 0 eq_refl) as Hnot.
  split; [apply ex_boot_inv|]. split; [exact Hnot|]. split.
  { destruct (switch_to_own_pid zero_memory 0 ex_boot
                (mk_process 0 [None; None]) ex_boot_inv eq_refl eq_refl)
      as [H _].
    destruct (H Hnot)
      as (st' & child & parent & H1 & H2 & _ & H3 & H4 & _ & _ & H5).
    exists st', child. auto. }
  split; [apply ex_twins_inv|]. split; [exact Hready|].
  destruct (switch_to_own_pid zero_memory 0 ex_twins
              (mk_process 0 [None; None]) ex_twins_inv eq_refl eq_refl)
    as (_ & H & Hnoop).
  destruct (H Hready) as (st' & t & qt & H1 & H2 & _).
  destruct (Hnoop st' H1) as [H3 H4].
  exists st'. auto.
Defined.

(** *** Where the code departs from the specification *)

(** C1, counterexample. [ex_mapped] is consistent and is reached by
    [alloc_page 0 3] from the initial state; a second [alloc_page 0 3] maps
    page 0 to frame 1 and leaves the counter of frame 0 at 1, although no
    entry maps frame 0 any more. The memory [malloc] returns is
    zero-filled. *)
Lemma refcount_counterexample :
  alloc_page zero_memory 0 3 ex_boot = Some (0%Z, ex_mapped) ∧
  machine_inv ex_mapped ∧
  ∃ st', alloc_page zero_memory 0 3 ex_mapped = Some (1%Z, st') ∧
         mapcount st' 0 = 1%Z ∧ mappings st' 0 = 0 ∧
         ¬ refcount_ok st'.
Proof.
  split; [reflexivity|]. split; [apply ex_mapped_inv|].
  eexists. split; [reflexivity|]. split; [reflexivity|].
  split; [reflexivity|].
  intros H. specialize (H 0). vm_compute in H. discriminate.
Qed.

(** C5, counterexample. In [ex_twice], a consistent machine, the current
    process maps frame 0 at two pages; the fork, into zero-filled memory,
    takes the counter of frame 0 from 2 to 4: it grows by one for each
    entry of the parent, not by exactly 1 for the frame. And the child
    mirrors the parent only where the loop writes: forked from [ex_mapped]
    into memory that is not zero, the child maps page 1, which the parent
    does not map. *)
Lemma fork_symmetry_counterexample :
  machine_inv ex_twice ∧ ¬ pid_ready ex_twice 7 ∧
  mapped_frame [Some [mk_pte true true 0 false; mk_pte true true 0 false];
                None] 0 = Some 0 ∧
  mapcount ex_twice 0 = 2%Z ∧
  (∃ st', switch_process zero_memory 7 ex_twice = Some st' ∧
          mapcount st' 0 = 4%Z) ∧
  machine_inv ex_mapped ∧ ¬ pid_ready ex_mapped 7 ∧
  ∃ st' parent child,
    switch_process dirty_memory 7 ex_mapped = Some st' ∧
    heap ex_mapped !! current ex_mapped = Some parent ∧
    heap st' !! current st' = Some child ∧
    mapped_frame (p_pagetable parent) 1 = None ∧
    mapped_frame (p_pagetable child) 1 = Some 7.
Proof.
  split; [apply ex_twice_inv|]. split; [by apply ex_no_ready|].
  split; [reflexivity|]. split; [reflexivity|].
  split; [eexists; split; reflexivity|].
  split; [apply ex_mapped_inv|]. split; [by apply ex_no_ready|].
  eexists _, _, _. repeat split; reflexivity.
Qed.

(** C10, counterexample. After [switch_process 0] from the initial state
    two processes have pid 0, one of them in the ready list. A second
    [switch_process 0] finds that one and switches to it: no process is
    created. *)
Lemma own_pid_counterexample :
  switch_process zero_memory 0 ex_boot = Some ex_twins ∧
  (∃ q, heap ex_twins !! current ex_twins = Some q ∧ pid q = 0) ∧
  ∃ st',
    switch_process zero_memory 0 ex_twins = Some st' ∧
    length (heap st') = length (heap ex_twins) ∧
    current st' = 0 ∧ 0 ∈ processes ex_twins.
Proof.
  split; [reflexivity|]. split; [by eexists|].
  eexists. split; [reflexivity|]. split; [reflexivity|].
  split; [reflexivity|]. by left.
Qed.

(** C4, the code at a failing input. In [ex_full], a consistent machine
    reached from the initial state, the four frames are in use and the
    second directory of the current process is not allocated: pages 2 and
    3 are not mapped. [alloc_page 2 3] allocates the directory before it
    scans for a frame, finds none and returns the no-frame value with the
    directory left in the page table, its entries never written. In
    zero-filled memory the page table has changed: the slot of the
    directory is no longer NULL. In memory that is not zero, pages 2 and 3
    are mapped afterwards, to a frame no counter accounts for. *)
Theorem alloc_page_exhausted :
  (st1 ← snd <$> alloc_page dirty_memory 0 3 ex_boot;
   st2 ← snd <$> alloc_page dirty_memory 1 3 st1;
   st3 ← switch_process dirty_memory 7 st2;
   st4 ← snd <$> handle_page_fault 0 3 st3;
   snd <$> handle_page_fault 1 3 st4) = Some ex_full ∧
  machine_inv ex_full ∧
  (∀ F, F < NR_PAGEFRAMES → mapcounts ex_full !! F ≠ Some 0%Z) ∧
  (∃ pt, read_ptbr ex_full = Some pt ∧ pt !! 1 = Some None ∧
         mapped_frame pt 2 = None ∧ mapped_frame pt 3 = None) ∧
  (∃ st' pt',
     alloc_page zero_memory 2 3 ex_full = Some (NO_FRAME, st') ∧
     read_ptbr st' = Some pt' ∧
     pt' !! 1 = Some (Some [zero_pte; zero_pte])) ∧
  (∃ st' pt',
     alloc_page dirty_memory 2 3 ex_full = Some (NO_FRAME, st') ∧
     mapcounts st' = mapcounts ex_full ∧
     read_ptbr st' = Some pt' ∧
     lookup_pte pt' 2 = Some (mk_pte true false 7 false) ∧
     mapped_frame pt' 2 = Some 7 ∧ mapped_frame pt' 3 = Some 7 ∧
     ¬ refcount_ok st').
Proof.
  split; [exact (proj1 ex_runs_dirty)|]. split; [apply ex_full_inv|]. split.
  { intros F HF. do 4 (destruct F as [|F]; [done|]). simpl in HF. lia. }
  split; [eexists; repeat split; reflexivity|].
  split; [eexists _, _; repeat split; reflexivity|].
  eexists _, _. split; [reflexivity|]. do 5 (split; [reflexivity|]).
  intros H. specialize (H 7). vm_compute in H. discriminate.
Qed.

(** C6, the code at a failing input. In [ex_forked] (an [alloc_page 0 3]
    followed by a fork) the entry of page 0 is private; [free_page 0]
    resets [valid], [writable] and [pfn] and leaves [private] set. *)
Theorem free_page_keeps_private :
  ∃ st' q',
    free_page 0 ex_forked = Some st' ∧
    heap st' !! current st' = Some q' ∧
    lookup_pte (p_pagetable q') 0 = Some (mk_pte false false 0 true).
Proof. eexists _, _. repeat split; reflexivity. Qed.

(** C8, the code at two failing inputs. A write fault on a page whose
    directory was never allocated dereferences the NULL directory pointer.
    A write fault on the page that [free_page] has just invalidated in
    [ex_freed] is handled as a copy-on-write fault: it succeeds, takes a
    reference from frame 0 and gives one to frame 1. *)
Theorem fault_on_invalid_entry :
  handle_page_fault 0 2 ex_boot = None ∧
  lookup_pte shared_pt 0 = Some (mk_pte true false 0 true) ∧
  free_page 0 ex_forked2 = Some ex_freed ∧
  ¬ page_mapped ex_freed 0 ∧
  ∃ st',
    handle_page_fault 0 2 ex_freed = Some (true, st') ∧
    mapcounts ex_freed = [2; 0; 0; 0]%Z ∧
    mapcounts st' = [1; 1; 0; 0]%Z.
Proof.
  split; [reflexivity|]. split; [reflexivity|]. split; [reflexivity|].
  split.
  - intros (q & e & Hq & He & Hv). vm_compute in Hq. simplify_eq.
    vm_compute in He. simplify_eq.
  - eexists. repeat split; reflexivity.
Qed.

(** *** Instances of the further properties *)

Lemma ex_runs_more :
  alloc_page zero_memory 1 3 ex_mapped = Some (1%Z, ex_mapped2) ∧
  alloc_page zero_memory 0 1 ex_boot = Some (0%Z, ex_read_only) ∧
  free_page 1 ex_mapped2 = Some ex_mapped ∧
  free_page 0 ex_mapped2 = Some ex_half ∧
  handle_page_fault 0 3 ex_forked = Some (true, ex_cow).
Proof. repeat split; reflexivity. Qed.

Lemma no_frame_value : (0 ≠ NO_FRAME ∧ 1 ≠ NO_FRAME)%Z.
Proof. by vm_compute. Qed.

Lemma ex_read_only_inv : machine_inv ex_read_only.
Proof. solve_machine_inv. Qed.

Lemma ex_mapped_exclusive : writable_exclusive ex_mapped.
Proof.
  intros h q vpn e Hh Hq He Hv Hw. unfold all_processes in Hh. simpl in Hh.
  apply list_elem_of_singleton in Hh as ->. simpl in Hq. simplify_eq.
  destruct (lookup_pte_elem_of _ _ _ He) as (pd & Hpd & Hin).
  simpl in Hpd. rewrite !elem_of_cons, elem_of_nil in Hpd.
  destruct Hpd as [Hpd|[Hpd|[]]]; simplify_eq.
  rewrite !elem_of_cons, elem_of_nil in Hin.
  destruct Hin as [->|[->|[]]]; done.
Qed.

Lemma alloc_page_post_witness :
  read_ptbr ex_boot = Some [None; None] ∧
  (∃ st' pt' e',
     alloc_page dirty_memory 0 3 ex_boot = Some (0%Z, st') ∧
     read_ptbr st' = Some pt' ∧
     lookup_pte pt' 0 = Some e' ∧
     e' = mk_pte true true 0 false ∧
     mapcounts st' !! 0 = Some 1%Z) ∧
  (∃ pt, read_ptbr ex_full = Some pt) ∧
  (∃ st' q',
     alloc_page dirty_memory 2 3 ex_full = Some (NO_FRAME, st') ∧
     mapcounts st' = mapcounts ex_full ∧
     heap st' !! 1 = Some q' ∧
     lookup_pte (p_pagetable q') 0 = Some (mk_pte true true 2 false)).
Proof.
  split; [reflexivity|]. split.
  { destruct (alloc_page_post dirty_memory 0 3 ex_boot [None; None])
      as [_ H].
    - simpl; lia.
    - simpl; lia.
    - reflexivity.
    - solve_shape.
    - reflexivity.
    - destruct (H 0) as (st' & pt' & e' & H1 & H2 & H3 & H4 & _ & _ & H5).
      + reflexivity.
      + intros i Hi; lia.
      + exists st', pt', e'. auto. }
  split; [by eexists|].
  destruct (alloc_page_post dirty_memory 2 3 ex_full
              [Some [mk_pte true true 2 false; mk_pte true true 3 false];
               None])
    as [H _].
  - simpl; lia.
  - simpl; lia.
  - reflexivity.
  - solve_shape.
  - reflexivity.
  - destruct H as (st' & H1 & H2 & H3 & _).
    + intros F HF. do 4 (destruct F as [|F]; [done|]). simpl in HF. lia.
    + destruct (H3 1 (mk_process 7
                  [Some [mk_pte true true 2 false; mk_pte true true 3 false];
                   None]) 0 (mk_pte true true 2 false) eq_refl eq_refl)
        as (q' & Hq' & He').
      exists st', q'. auto.
Defined.

Lemma alloc_page_fresh_frame_witness :
  refcount_ok ex_mapped ∧
  alloc_page zero_memory 1 3 ex_mapped = Some (1%Z, ex_mapped2) ∧
  ∃ F, 1%Z = Z.of_nat F ∧ mapcount ex_mapped F = 0%Z ∧
       mapcount ex_mapped2 F = 1%Z.
Proof.
  pose proof ex_mapped_inv as (_ & _ & Hrc).
  split; [done|]. split; [reflexivity|].
  destruct (alloc_page_fresh_frame zero_memory 1 3 ex_mapped ex_mapped2 1 Hrc
              (proj1 ex_runs_more) (proj2 no_frame_value))
    as (F & H1 & _ & H2 & H3 & _).
  exists F. auto.
Defined.

Lemma alloc_page_increasing_witness :
  alloc_page zero_memory 0 3 ex_boot = Some (0%Z, ex_mapped) ∧
  alloc_page zero_memory 1 3 ex_mapped = Some (1%Z, ex_mapped2) ∧
  (0 < 1)%Z.
Proof.
  split; [reflexivity|]. split; [reflexivity|].
  exact (alloc_page_increasing zero_memory zero_memory 0 1 3 3
           ex_boot ex_mapped ex_mapped2 0 1
           (proj1 ex_runs) (proj1 ex_runs_more)
           (proj1 no_frame_value) (proj2 no_frame_value)).
Defined.

Lemma alloc_then_free_witness :
  alloc_page zero_memory 1 3 ex_mapped = Some (1%Z, ex_mapped2) ∧
  ∃ st2, free_page 1 ex_mapped2 = Some st2 ∧ st2 = ex_mapped.
Proof.
  split; [reflexivity|].
  destruct (alloc_then_free zero_memory 1 3 ex_mapped ex_mapped2 1
              (proj1 ex_runs_more) (proj2 no_frame_value))
    as (st2 & pt2 & H1 & _ & _ & _ & H2).
  exists st2. split; [done|]. by eapply H2.
Defined.

Lemma free_then_alloc_witness :
  mapcount ex_mapped 0 = 1%Z ∧
  ∃ st1 st2 F,
    free_page 0 ex_mapped = Some st1 ∧
    alloc_page zero_memory 1 3 st1 = Some (Z.of_nat F, st2) ∧ F ≤ 0.
Proof.
  split; [reflexivity|].
  destruct (free_then_alloc zero_memory 0 1 3 ex_mapped
              (mk_process 0 [Some [mk_pte true true 0 false; zero_pte]; None])
              (mk_pte true true 0 false) ex_mapped_inv eq_refl eq_refl eq_refl
              eq_refl)
    as (st1 & st2 & F & H1 & _ & H2 & H3 & _).
  - simpl; lia.
  - exists st1, st2, F. auto.
Defined.

Lemma alloc_page_remap_leaks_witness :
  machine_inv ex_mapped ∧
  ∃ st', alloc_page zero_memory 0 3 ex_mapped = Some (1%Z, st') ∧
         mapcount st' 0 = 1%Z ∧ mappings st' 0 = 0.
Proof.
  split; [apply ex_mapped_inv|]. eexists. split; [reflexivity|].
  destruct (alloc_page_remap_leaks zero_memory 0 3 ex_mapped _ 1
              (mk_process 0 [Some [mk_pte true true 0 false; zero_pte]; None])
              (mk_pte true true 0 false) ex_mapped_inv eq_refl eq_refl eq_refl
              eq_refl (proj2 no_frame_value))
    as (H1 & H2 & _).
  split; [exact H1|]. apply Nat.succ_inj. exact H2.
Defined.

Lemma handle_page_fault_frame_witness :
  handle_page_fault 0 3 ex_forked = Some (true, ex_cow) ∧
  current ex_cow = 1 ∧ processes ex_cow = [0] ∧
  heap ex_cow !! 0 = Some (mk_process 0 shared_pt).
Proof.
  pose proof ex_runs_more as (_ & _ & _ & _ & Hf). split; [exact Hf|].
  destruct (handle_page_fault_frame 0 3 ex_forked ex_cow true Hf)
    as (_ & H1 & _ & H2 & H3 & _).
  split; [exact H1|]. split; [exact H2|]. apply (H3 0). simpl. lia.
Defined.

Lemma other_pages_untouched_witness :
  free_page 0 ex_mapped2 = Some ex_half ∧
  (∃ pt', read_ptbr ex_half = Some pt' ∧
          lookup_pte pt' 1 = Some (mk_pte true true 1 false)) ∧
  ∃ st' pt', alloc_page dirty_memory 2 3 ex_mapped2 = Some (2%Z, st') ∧
             read_ptbr st' = Some pt' ∧
             lookup_pte pt' 1 = Some (mk_pte true true 1 false).
Proof.
  pose proof ex_runs_more as (_ & _ & _ & Hf & _). split; [exact Hf|].
  split.
  - destruct (other_pages_untouched 0 1 ex_mapped2
              [Some [mk_pte true true 0 false; mk_pte true true 1 false]; None])
      as (_ & H & _).
    + simpl; lia.
    + lia.
    + reflexivity.
    + destruct (H ex_half Hf) as (pt' & H1 & H2).
      exists pt'. split; [exact H1|]. exact H2.
  - destruct (other_pages_untouched 2 1 ex_mapped2
              [Some [mk_pte true true 0 false; mk_pte true true 1 false]; None])
      as (H & _).
    + simpl; lia.
    + lia.
    + reflexivity.
    + eexists.
      destruct (H dirty_memory 3%Z 2%Z _ eq_refl) as (pt' & H1 & H2 & _).
      exists pt'. split; [reflexivity|]. split; [exact H1|].
      apply H2. reflexivity.
Defined.

Lemma switch_round_trip_witness :
  sched_ok ex_forked ∧
  ∃ st1 st2,
    switch_process zero_memory 0 ex_forked = Some st1 ∧
    switch_process zero_memory 7 st1 = Some st2 ∧
    current st2 = 1 ∧ heap st2 = heap ex_forked ∧
    mapcounts st2 = mapcounts ex_forked.
Proof.
  pose proof ex_forked_inv as (Hs & _). split; [exact Hs|].
  destruct (switch_round_trip zero_memory zero_memory 0 ex_forked
              (mk_process 7 shared_pt) Hs eq_refl)
    as (st1 & st2 & H1 & _ & H2 & H3 & _ & H4 & H5 & _).
  - exists 0, (mk_process 0 shared_pt). split; [by left|done].
  - exists st1, st2. auto.
Defined.

Lemma read_only_survives_fork_witness :
  machine_inv ex_read_only ∧
  ∃ st1 child,
    switch_process zero_memory 7 ex_read_only = Some st1 ∧
    heap st1 !! current st1 = Some child ∧
    lookup_pte (p_pagetable child) 0 = Some (mk_pte true false 0 false) ∧
    handle_page_fault 0 3 st1 = Some (false, st1).
Proof.
  split; [apply ex_read_only_inv|].
  destruct (read_only_survives_fork zero_memory 7 0 3 ex_read_only
              (mk_process 0 [Some [mk_pte true false 0 false; zero_pte]; None])
              (mk_pte true false 0 false) ex_read_only_inv eq_refl
              (ex_no_ready ex_read_only 7 eq_refl) eq_refl eq_refl eq_refl
              eq_refl)
    as (st1 & parent & child & H1 & _ & H2 & _ & H3 & H4).
  exists st1, child. auto.
Defined.

Lemma writable_pages_exclusive_witness :
  machine_inv ex_mapped ∧ writable_exclusive ex_mapped ∧
  mappings ex_mapped 0 = 1 ∧
  ∃ st', switch_process zero_memory 7 ex_mapped = Some st' ∧
         writable_exclusive st'.
Proof.
  split; [apply ex_mapped_inv|]. split; [apply ex_mapped_exclusive|].
  destruct (writable_pages_exclusive ex_mapped ex_mapped_inv
              ex_mapped_exclusive) as (H1 & _ & _ & _ & H2).
  split.
  - apply (H1 0 (mk_process 0 [Some [mk_pte true true 0 false; zero_pte]; None])
              0 (mk_pte true true 0 false)); try reflexivity. by left.
  - destruct (H2 zero_memory 7) as (st' & Hsw & _ & Hwe).
    + right. split; [apply zero_memory_clear|].
      intros q Hq. simpl in Hq. simplify_eq.
      apply ex_mapped_fork_pre.
    + exists st'. auto.
Defined.

Lemma fork_then_write_witness :
  machine_inv ex_mapped ∧
  ∃ st1 st2 parent child,
    switch_process zero_memory 7 ex_mapped = Some st1 ∧
    handle_page_fault 0 3 st1 = Some (true, st2) ∧
    heap st2 !! 0 = Some parent ∧
    heap st2 !! current st2 = Some child ∧
    lookup_pte (p_pagetable child) 0 = Some (mk_pte true true 1 false) ∧
    lookup_pte (p_pagetable parent) 0 = Some (mk_pte true false 0 true) ∧
    mapcount st2 1 = 1%Z ∧ mapcount st2 0 = 1%Z.
Proof.
  split; [apply ex_mapped_inv|].
  destruct ex_mapped_fork_pre as (Hp & Hd & Hf).
  destruct (fork_then_write zero_memory 7 0 3 ex_mapped
              (mk_process 0 [Some [mk_pte true true 0 false; zero_pte]; None])
              (mk_pte true true 0 false) 1 ex_mapped_inv eq_refl Hp Hf
              eq_refl eq_refl eq_refl)
    as (st1 & st2 & parent & child & H1 & H2 & _ & H3 & H4 & _ & H5 & H6 & H7
        & H8).
  - simpl; lia.
  - reflexivity.
  - intros i Hi. destruct i as [|i]; [done|lia].
  - exists st1, st2, parent, child. repeat split; try assumption.
    exact (H8 Hd).
Defined.

